(** * Brachistochrone demonstration: curve model, simulation clock and ranking

    A shallow embedding of [src/components/BrachistochroneDemo.tsx].

    Conventions of the embedding:
    - a JavaScript [number] is a mathematical real ([R]); [Math.sin],
      [Math.cos], [Math.sqrt], [Math.PI], [Math.min] and [Math.max] are
      [sin], [cos], [sqrt], [PI], [Rmin] and [Rmax]; rounding of IEEE
      doubles is not modelled there.  The module [Double] holds the two
      cycloids over binary64 floats, for the statement that is about the
      equality of computed numbers;
    - a two-element array [[x, y]] is a pair;
    - the [curves] object is an association list in property-insertion
      order, the order in which [Object.entries] enumerates it;
    - [Record<string, _>] state objects are finite maps ([gmap string _]);
    - React state cells and refs are the fields of one [State] record; the
      handlers and [drawFrame] are functions from [State] to [State], the
      state updates issued by one callback being applied together; the
      effect of the component (cleanup, then either a frame request or an
      immediate redraw) is [useEffect], re-run by [settle] for as long as
      one of its dependencies changed;
    - the canvas and its 2d context are taken to exist; of the drawing
      only the position of the balls is modelled ([animatedBall]);
    - the two path generators of the instructions page
      ([InstructionsPage]) return the list of their points. *)

From Stdlib Require Import Floats.
From Stdlib Require Import Reals Lra Lia ZArith.
From Stdlib Require Import DecimalString.
From stdpp Require Import base decidable option list strings gmap sorting.

#[local] Open Scope R_scope.

(** ** Numbers *)

#[global] Instance R_eq_dec : EqDecision R := Req_dec_T.
#[global] Instance Rlt_decision (x y : R) : Decision (x < y) := Rlt_dec x y.
#[global] Instance Rle_decision (x y : R) : Decision (x <= y) := Rle_dec x y.

(** [a || b] on a nullable number: [null] and [0] are falsy. *)
Definition or_else (a : option R) (b : R) : R :=
  match a with
  | Some v => if decide (v = 0) then b else v
  | None => b
  end.

(** [Math.max(...xs)]; the empty case ([-Infinity] in JavaScript) does not
    arise, the curve set always has four entries. *)
Definition Math_max (xs : list R) : R :=
  match xs with
  | [] => 0
  | x :: xs' => foldl Rmax x xs'
  end.

(** [x.toFixed(f)] for [x] below [10^21]: the integer [n] for which
    [n / 10^f - x] is closest to zero (the larger one on a tie), printed
    with [f] digits after the point. *)
Definition round_half_up (x : R) : Z := Int_part (x + 1 / 2).

Definition digits (n : Z) : string :=
  NilZero.string_of_uint (N.to_uint (Z.to_N n)).

Fixpoint zeros (k : nat) : string :=
  match k with
  | O => EmptyString
  | S k' => ("0" +:+ zeros k')%string
  end.

Definition point_at (f : nat) (m : string) : string :=
  match f with
  | O => m
  | S _ =>
      let m' := if (String.length m <=? f)%nat
                then (zeros (S f - String.length m) +:+ m)%string else m in
      let k := String.length m' in
      (String.substring 0 (k - f) m' +:+ "."
       +:+ String.substring (k - f) f m')%string
  end.

Definition toFixed (x : R) (f : nat) : string :=
  let neg := bool_decide (x < 0) in
  let ax := if neg then - x else x in
  let n := round_half_up (ax * 10 ^ f) in
  ((if neg then "-" else EmptyString) +:+ point_at f (digits n))%string.

(** ** Curve model *)

Record CurveData := mkCurve {
  func : R -> R * R;
  color : string;
  time : R
}.

Definition Brachistochrone : CurveData :=
  {| func := fun t =>
       let theta := t * PI in
       ((theta - sin theta) / PI, (1 - cos theta) / 2);
     color := "#3b82f6";
     time := 2.0 |}.

Definition Straight_Line : CurveData :=
  {| func := fun t => (t, t);
     color := "#ef4444";
     time := 2.5 |}.

Definition Parabola : CurveData :=
  {| func := fun t => (t, t * (2 - t));
     color := "#8b5cf6";
     time := 2.1 |}.

Definition Parametric_Cycloid (cycloidParameter : R) : CurveData :=
  {| func := fun t =>
       (t - sin (PI * t) / PI,
        (1 - cos (PI * t)) / 2 + cycloidParameter * sin (PI * t) ^ 2);
     color := "#f59e0b";
     time := 2.0 * (1 + cycloidParameter) |}.

(** The memoised [curves] object, rebuilt from [cycloidParameter]. *)
Definition curves (cycloidParameter : R) : list (string * CurveData) :=
  [ ("Brachistochrone", Brachistochrone);
    ("Straight Line", Straight_Line);
    ("Parabola", Parabola);
    ("Parametric Cycloid", Parametric_Cycloid cycloidParameter) ].

(** [curves[label]] *)
Fixpoint curve_of (cs : list (string * CurveData)) (label : string)
  : option CurveData :=
  match cs with
  | [] => None
  | (l, c) :: cs' => if decide (l = label) then Some c else curve_of cs' label
  end.

Definition in_unit_square (p : R * R) : Prop :=
  0 <= fst p <= 1 /\ 0 <= snd p <= 1.

(** ** Ranking engine (the body of [drawFrame], lines 203-218) *)

(** One entry [[label, progress, distance]] of [progressData]. *)
Record Entry := mkEntry {
  e_label : string;
  e_progress : R;
  e_distance : R
}.

Definition progress_of (elapsedTime : R) (curve : CurveData) : R :=
  Rmin (elapsedTime / time curve) 1.

Definition distance_of (p : R * R) : R :=
  sqrt ((1 - fst p) ^ 2 + (1 - snd p) ^ 2).

Definition progressEntry (elapsedTime : R) (lc : string * CurveData) : Entry :=
  let progress := progress_of elapsedTime (snd lc) in
  let xy := func (snd lc) progress in
  mkEntry (fst lc) progress (distance_of xy).

(** The comparator [(a, b) => a[2] - b[2]]. *)
Definition byDistance (a b : Entry) : R := e_distance a - e_distance b.

(** Comparators of that shape, and the order they sort into. *)
Definition byKey {A} (key : A -> R) (a b : A) : R := key a - key b.

Definition ascending {A} (key : A -> R) (a b : A) : Prop := key a <= key b.

(** [Array.prototype.sort] with a comparator.  ECMAScript (2019 on)
    requires the sort to be stable, which fixes its result for a
    consistent comparator; it is modelled by insertion from the right,
    where an element moves behind exactly the elements that compare
    strictly smaller. *)
Fixpoint sort_insert {A} (cmp : A -> A -> R) (x : A) (l : list A) : list A :=
  match l with
  | [] => [x]
  | y :: l' =>
      if decide (cmp y x < 0) then y :: sort_insert cmp x l' else x :: y :: l'
  end.

Definition Array_sort {A} (cmp : A -> A -> R) (l : list A) : list A :=
  foldr (sort_insert cmp) [] l.

Definition progressData (cycloidParameter elapsedTime : R) : list Entry :=
  Array_sort byDistance
    (map (progressEntry elapsedTime) (curves cycloidParameter)).

Definition newRankings (cycloidParameter elapsedTime : R) : list string :=
  map e_label (progressData cycloidParameter elapsedTime).

(** ** Component state *)

Inductive Phase := idle | running | paused.

#[global] Instance Phase_eq_dec : EqDecision Phase.
Proof. solve_decision. Defined.

Record State := mkState {
  animationState : Phase;
  animationSpeed : R;
  cycloidParameter : R;
  elapsedTimes : gmap string string;
  rankings : list string;
  prevRankings : list string;
  startTimeRef : option R;
  isAnimationComplete : bool;
  pausedElapsedTime : R;
  lastTimestampRef : option R;
  distanceToEnd : gmap string R;
  (** a [requestAnimationFrame] callback is outstanding under
      [animationFrameId] *)
  frameRequested : bool
}.

(** The state of the first render. *)
Definition initial : State :=
  {| animationState := idle;
     animationSpeed := 0.5;
     cycloidParameter := 0.2;
     elapsedTimes := ∅;
     rankings := [];
     prevRankings := [];
     startTimeRef := None;
     isAnimationComplete := false;
     pausedElapsedTime := 0;
     lastTimestampRef := None;
     distanceToEnd := ∅;
     frameRequested := false |}.

(** The elapsed time [drawFrame] computes (lines 169-181). *)
Definition lastSeen (s : State) (timestamp : R) : option R :=
  match startTimeRef s with
  | None => Some timestamp
  | Some _ => lastTimestampRef s
  end.

Definition elapsedTime (s : State) (timestamp : R) : R :=
  match animationState s with
  | running =>
      let deltaTime := timestamp - or_else (lastSeen s timestamp) timestamp in
      pausedElapsedTime s + deltaTime / 1000 * animationSpeed s
  | _ => pausedElapsedTime s
  end.

Definition maxTime (cycloidParameter : R) : R :=
  Math_max (map (fun lc => time (snd lc)) (curves cycloidParameter)).

(** [setDistanceToEnd]: copy [prev], then store every entry's distance. *)
Definition newDistances (prev : gmap string R) (pd : list Entry)
  : gmap string R :=
  foldl (fun m e => <[e_label e := e_distance e]> m) prev pd.

(** [setElapsedTimes] of line 230: copy [prev], then store every label's
    curve time as [time.toFixed(2) + 's'].  Every label of [progressData]
    is a key of [curves]; the [None] branch (a [TypeError] in JavaScript)
    is not reachable. *)
Definition newTimes (cs : list (string * CurveData))
    (prev : gmap string string) (pd : list Entry) : gmap string string :=
  foldl (fun m e =>
           match curve_of cs (e_label e) with
           | Some c => <[e_label e := (toFixed (time c) 2 +:+ "s")%string]> m
           | None => m
           end) prev pd.

Definition drawFrame (s : State) (timestamp : R) : State :=
  let isRunning := bool_decide (animationState s = running) in
  let elapsed := elapsedTime s timestamp in
  let cs := curves (cycloidParameter s) in
  let pd := progressData (cycloidParameter s) elapsed in
  let ranks := map e_label pd in
  let changed := bool_decide (ranks <> rankings s) in
  let finished := bool_decide (maxTime (cycloidParameter s) <= elapsed) in
  {| animationState := if finished then idle else animationState s;
     animationSpeed := animationSpeed s;
     cycloidParameter := cycloidParameter s;
     elapsedTimes :=
       if isAnimationComplete s then newTimes cs (elapsedTimes s) pd
       else elapsedTimes s;
     rankings := if changed then ranks else rankings s;
     prevRankings := if changed then rankings s else prevRankings s;
     startTimeRef :=
       match startTimeRef s with
       | None => Some timestamp
       | Some t0 => Some t0
       end;
     isAnimationComplete := if finished then true else isAnimationComplete s;
     pausedElapsedTime :=
       if finished then pausedElapsedTime s
       else if isRunning then elapsed else pausedElapsedTime s;
     lastTimestampRef :=
       if isRunning then Some timestamp else lastSeen s timestamp;
     distanceToEnd := newDistances (distanceToEnd s) pd;
     frameRequested :=
       if finished then frameRequested s
       else if isRunning then true else frameRequested s |}.

(** ** Handlers *)

Definition handleStartAnimation (s : State) : State :=
  {| animationState := running;
     animationSpeed := animationSpeed s;
     cycloidParameter := cycloidParameter s;
     elapsedTimes := ∅;
     rankings := rankings s;
     prevRankings := prevRankings s;
     startTimeRef := None;
     isAnimationComplete := false;
     pausedElapsedTime := 0;
     lastTimestampRef := None;
     distanceToEnd := distanceToEnd s;
     frameRequested := frameRequested s |}.

Definition handlePauseAnimation (s : State) : State :=
  {| animationState := paused;
     animationSpeed := animationSpeed s;
     cycloidParameter := cycloidParameter s;
     elapsedTimes := elapsedTimes s;
     rankings := rankings s;
     prevRankings := prevRankings s;
     startTimeRef := startTimeRef s;
     isAnimationComplete := isAnimationComplete s;
     pausedElapsedTime := pausedElapsedTime s;
     lastTimestampRef := lastTimestampRef s;
     distanceToEnd := distanceToEnd s;
     frameRequested := frameRequested s |}.

Definition handleResumeAnimation (s : State) : State :=
  {| animationState := running;
     animationSpeed := animationSpeed s;
     cycloidParameter := cycloidParameter s;
     elapsedTimes := elapsedTimes s;
     rankings := rankings s;
     prevRankings := prevRankings s;
     startTimeRef := startTimeRef s;
     isAnimationComplete := isAnimationComplete s;
     pausedElapsedTime := pausedElapsedTime s;
     lastTimestampRef := None;
     distanceToEnd := distanceToEnd s;
     frameRequested := frameRequested s |}.

Definition handleResetAnimation (s : State) : State :=
  {| animationState := idle;
     animationSpeed := animationSpeed s;
     cycloidParameter := cycloidParameter s;
     elapsedTimes := ∅;
     rankings := rankings s;
     prevRankings := prevRankings s;
     startTimeRef := None;
     isAnimationComplete := isAnimationComplete s;
     pausedElapsedTime := 0;
     lastTimestampRef := None;
     distanceToEnd := distanceToEnd s;
     frameRequested := frameRequested s |}.

Definition setAnimationSpeed (value : R) (s : State) : State :=
  {| animationState := animationState s;
     animationSpeed := value;
     cycloidParameter := cycloidParameter s;
     elapsedTimes := elapsedTimes s;
     rankings := rankings s;
     prevRankings := prevRankings s;
     startTimeRef := startTimeRef s;
     isAnimationComplete := isAnimationComplete s;
     pausedElapsedTime := pausedElapsedTime s;
     lastTimestampRef := lastTimestampRef s;
     distanceToEnd := distanceToEnd s;
     frameRequested := frameRequested s |}.

Definition setCycloidParameter (value : R) (s : State) : State :=
  {| animationState := animationState s;
     animationSpeed := animationSpeed s;
     cycloidParameter := value;
     elapsedTimes := elapsedTimes s;
     rankings := rankings s;
     prevRankings := prevRankings s;
     startTimeRef := startTimeRef s;
     isAnimationComplete := isAnimationComplete s;
     pausedElapsedTime := pausedElapsedTime s;
     lastTimestampRef := lastTimestampRef s;
     distanceToEnd := distanceToEnd s;
     frameRequested := frameRequested s |}.

(** ** The effect and the render loop (lines 76-257) *)

Definition setFrameRequested (b : bool) (s : State) : State :=
  {| animationState := animationState s;
     animationSpeed := animationSpeed s;
     cycloidParameter := cycloidParameter s;
     elapsedTimes := elapsedTimes s;
     rankings := rankings s;
     prevRankings := prevRankings s;
     startTimeRef := startTimeRef s;
     isAnimationComplete := isAnimationComplete s;
     pausedElapsedTime := pausedElapsedTime s;
     lastTimestampRef := lastTimestampRef s;
     distanceToEnd := distanceToEnd s;
     frameRequested := b |}.

(** The cleanup returned by the effect: [cancelAnimationFrame]. *)
Definition cleanup (s : State) : State := setFrameRequested false s.

(** The tail of the effect body: request a frame while running, redraw at
    once otherwise. *)
Definition useEffect (s : State) (now : R) : State :=
  match animationState s with
  | running => setFrameRequested true s
  | _ => drawFrame s now
  end.

(** The dependency array of the effect; [curves] changes with
    [cycloidParameter] only, and [setPrevRankings] never changes. *)
Definition deps (s : State) : Phase * R * R * R * list string * bool :=
  (animationState s, cycloidParameter s, pausedElapsedTime s,
   animationSpeed s, rankings s, isAnimationComplete s).

Definition deps_changed (old s : State) : bool :=
  bool_decide (deps old <> deps s).

(** Re-render until no dependency changed.  [now i] is the value of the
    [i]-th call of [performance.now()]. *)
Fixpoint settle (fuel : nat) (now : nat -> R) (i : nat) (old s : State)
  : State :=
  match fuel with
  | O => s
  | S fuel' =>
      if deps_changed old s
      then settle fuel' now (S i) s (useEffect (cleanup s) (now i))
      else s
  end.

Inductive Event :=
  | ClickStart
  | ClickPause
  | ClickResume
  | ClickReset
  | SlideSpeed (value : R)
  | SlideShape (value : R)
  | AnimationFrame (timestamp : R).

(** What an event does before React re-renders.  A frame callback runs
    only if it is still requested, and consumes the request. *)
Definition handle (ev : Event) (s : State) : State :=
  match ev with
  | ClickStart => handleStartAnimation s
  | ClickPause => handlePauseAnimation s
  | ClickResume => handleResumeAnimation s
  | ClickReset => handleResetAnimation s
  | SlideSpeed v => setAnimationSpeed v s
  | SlideShape v => setCycloidParameter v s
  | AnimationFrame timestamp =>
      if frameRequested s then drawFrame (setFrameRequested false s) timestamp
      else s
  end.

(** Three rounds are enough for the render loop to come to rest
    ([settle_enough] below). *)
Definition rounds : nat := 3.

Definition step (now : nat -> R) (s : State) (ev : Event) : State :=
  settle rounds now 0 s (handle ev s).

(** Mounting runs the effect once, whatever the dependencies. *)
Definition mount (now : nat -> R) : State :=
  settle rounds now 1 initial (useEffect initial (now 0%nat)).

(** ** Read model of the rankings panel (lines 376-429) *)

(** [xs.indexOf(x)], [-1] when absent. *)
Fixpoint indexOf (xs : list string) (x : string) : Z :=
  match xs with
  | [] => (-1)%Z
  | y :: xs' =>
      if decide (y = x) then 0%Z
      else let i := indexOf xs' x in
           if (i <? 0)%Z then (-1)%Z else (i + 1)%Z
  end.

Inductive Indicator := NoIndicator | Up | Down.

(** The arrow drawn for the row [index] of [rankings], holding [label]. *)
Definition rankIndicator (s : State) (label : string) (index : nat)
  : Indicator :=
  let was := indexOf (prevRankings s) label in
  if negb (isAnimationComplete s) && negb (was =? Z.of_nat index)%Z
  then (if (was >? Z.of_nat index)%Z then Up else Down)
  else NoIndicator.

(** The rank delta the indicator stands for. *)
Definition rankDelta (s : State) (label : string) : Z :=
  (indexOf (prevRankings s) label - indexOf (rankings s) label)%Z.

(** The figure shown in a row; [None] stands for the [TypeError] of
    [undefined.toFixed]. *)
Definition displayMetric (s : State) (label : string) : option string :=
  if isAnimationComplete s
  then Some (match elapsedTimes s !! label with
             | Some v => if decide (v = EmptyString) then "0.00s" else v
             | None => "0.00s"
             end)
  else (fun d => toFixed d 3) <$> (distanceToEnd s !! label).

(** ** The laws of the specification, for comparison with [curves] *)

Definition law_fastest_descent (t : R) : R * R :=
  let theta := PI * t in ((theta - sin theta) / PI, (1 - cos theta) / 2).

Definition law_direct_line (t : R) : R * R := (t, t).

Definition law_quadratic (t : R) : R * R := (t, t * (2 - t)).

Definition law_tunable (E t : R) : R * R :=
  (t - sin (PI * t) / PI, (1 - cos (PI * t)) / 2 + E * (sin (PI * t))²).

Definition law_total_time (baseTime E : R) : R := baseTime * (1 + E).

(** ** Vocabulary of the statements *)

(** [a] stands before [b] in the list [l]. *)
Definition before {A} (l : list A) (a b : A) : Prop :=
  exists l1 l2 l3, l = l1 ++ a :: l2 ++ b :: l3.

(** The order of the curve set, and the order late in a run with the
    default shape parameter. *)
Definition definitionOrder : list string :=
  ["Brachistochrone"; "Straight Line"; "Parabola"; "Parametric Cycloid"].

Definition lateOrder : list string :=
  ["Brachistochrone"; "Parabola"; "Parametric Cycloid"; "Straight Line"].

(** A redraw outside [running] finishes the run when the banked time has
    reached the longest total time. *)
Definition finishedAt (s : State) : bool :=
  bool_decide (maxTime (cycloidParameter s) <= pausedElapsedTime s).

(** Idle before a run, at speed [v] and shape parameter [E]. *)
Definition config (v E : R) (x : State) : Prop :=
  animationState x = idle /\ pausedElapsedTime x = 0 /\
  animationSpeed x = v /\ cycloidParameter x = E /\
  isAnimationComplete x = false /\ frameRequested x = false.

(** The first paint. *)
Definition atRest (x : State) : Prop :=
  config 0.5 0.2 x /\ rankings x = definitionOrder /\ prevRankings x = [].

(** Running with [e] seconds banked and the last frame stamped [last]. *)
Definition underway (v E e : R) (last : R) (x : State) : Prop :=
  animationState x = running /\ pausedElapsedTime x = e /\
  lastTimestampRef x = Some last /\ (exists t0, startTimeRef x = Some t0) /\
  frameRequested x = true /\ animationSpeed x = v /\
  cycloidParameter x = E /\ isAnimationComplete x = false.

(** Finished: idle, flagged complete, every curve's time on display. *)
Definition frozen (x : State) : Prop :=
  animationState x = idle /\ isAnimationComplete x = true /\
  frameRequested x = false /\
  forall lc, lc ∈ curves (cycloidParameter x) ->
    elapsedTimes x !! fst lc = Some (toFixed (time (snd lc)) 2 +:+ "s")%string.

(** A frame request is outstanding only while running. *)
Definition requestOnlyRunning (s : State) : Prop :=
  frameRequested s = true -> animationState s = running.


(** ** Sample runs

    Every [performance.now()] reads [500]; frame timestamps are in
    milliseconds.  The speed slider starts at [0.5], the shape slider at
    [0.2]. *)
Definition clock : nat -> R := fun _ => 500.

Definition firstPaint : State := mount clock.

(** Started, first frame at [1000], second frame at [5800]: [2.4] seconds
    banked, the straight line still on its way. *)
Definition lateRun : State :=
  step clock
    (step clock (step clock firstPaint ClickStart) (AnimationFrame 1000))
    (AnimationFrame 5800).

(** The frame at [6000] reaches [2.5] seconds and finishes the run. *)
Definition finishedRun : State := step clock lateRun (AnimationFrame 6000).

(** Speed set to [1], started, frames at [1000] and [2000]: one second
    banked. *)
Definition oneSecondIn : State :=
  step clock
    (step clock
       (step clock (step clock firstPaint (SlideSpeed 1)) ClickStart)
       (AnimationFrame 1000))
    (AnimationFrame 2000).

(** Shape parameter [0], speed [1], started, first frame at [1000]. *)
Definition scenarioTwo : State :=
  step clock
    (step clock
       (step clock (step clock firstPaint (SlideShape 0)) (SlideSpeed 1))
       ClickStart)
    (AnimationFrame 1000).

(** ** Runs of the component *)

(** The states the component can be in: the first paint, and what any
    event makes of such a state. *)
Inductive reachable : State -> Prop :=
  | reachable_mount now : reachable (mount now)
  | reachable_step now s ev : reachable s -> reachable (step now s ev).

(** The events the page offers in a state (lines 318-368): the Start
    button is rendered only in [idle], Pause only in [running], Resume only
    in [paused] and Reset outside [idle]; the speed slider ranges over
    [[0.1, 2]] and the shape slider over [[0, 1]] (their step of [0.1] is
    not modelled, which admits more values than the page does); the
    browser stamps an animation frame no earlier than the frame before. *)
Definition offered (s : State) (ev : Event) : Prop :=
  match ev with
  | ClickStart => animationState s = idle
  | ClickPause => animationState s = running
  | ClickResume => animationState s = paused
  | ClickReset => animationState s <> idle
  | SlideSpeed v => 0.1 <= v <= 2
  | SlideShape v => 0 <= v <= 1
  | AnimationFrame ts =>
      match lastTimestampRef s with
      | Some last => last <= ts
      | None => True
      end
  end.

Inductive offeredRun : State -> Prop :=
  | offeredRun_mount now : offeredRun (mount now)
  | offeredRun_step now s ev :
      offeredRun s -> offered s ev -> offeredRun (step now s ev).

(** ** Canvas geometry (lines 83-87, 190-200 and 311-315) *)

Definition canvasWidth : R := 900.
Definition canvasHeight : R := 500.
Definition marginTop : R := 50.
Definition marginRight : R := 50.
Definition marginBottom : R := 70.
Definition marginLeft : R := 70.
Definition graphWidth : R := canvasWidth - marginLeft - marginRight.
Definition graphHeight : R := canvasHeight - marginTop - marginBottom.
Definition ballRadius : R := 8.

(** The centre of the ball drawn for a position [[x, y]]. *)
Definition ballCentre (p : R * R) : R * R :=
  (marginLeft + fst p * graphWidth, marginTop + snd p * graphHeight).

(** The ball drawn for a curve at an elapsed time (lines 190-194). *)
Definition animatedBall (elapsedTime : R) (curve : CurveData) : R * R :=
  ballCentre (func curve (progress_of elapsedTime curve)).

(** A disc of radius [r] around [c] lies on the canvas. *)
Definition onCanvas (c : R * R) (r : R) : Prop :=
  0 <= fst c - r /\ fst c + r <= canvasWidth /\
  0 <= snd c - r /\ snd c + r <= canvasHeight.

(** ** The instructions page ([InstructionsPage], opened from the demo)

    The two path generators return the points of an SVG polyline; the
    points are kept as pairs, their printing as ["x,y"] is left out. *)
Module InstructionsPage.

Definition steps : nat := 100.

(** The indices [0, ..., steps] of the loops. *)
Definition indices : list nat := seq 0 (S steps).

Definition generateBrachistochronePath : list (R * R) :=
  (fun i : nat =>
     let t := PI * INR i / INR steps in
     ((t - sin t) / PI * 300, (1 - cos t) / 2 * 300)) <$> indices.

Definition generateParametricCycloidPath (E : R) : list (R * R) :=
  (fun i : nat =>
     let t := INR i / INR steps in
     ((t - sin (PI * t) / PI) * 300,
      (- (1 - cos (PI * t)) / 2 + E * sin (PI * t) ^ 2) * -300)) <$> indices.

(** The shape parameter the page starts with. *)
Definition cycloidParameter0 : R := 0.5.

(** The SVG view box is [0 0 300 300]. *)
Definition inViewBox (p : R * R) : Prop :=
  0 <= fst p <= 300 /\ 0 <= snd p <= 300.

End InstructionsPage.

(** A position scaled to the view box of the instructions page. *)
Definition scaled300 (p : R * R) : R * R := (fst p * 300, snd p * 300).

(** ** Invariants of the runs *)

(** While running, a frame request is outstanding. *)
Definition requestWhileRunning (s : State) : Prop :=
  animationState s = running -> frameRequested s = true.

(** The rankings hold the four labels, and every label has a distance on
    record: what the rankings panel (lines 389-427) reads. *)
Definition snapshotComplete (s : State) : Prop :=
  rankings s ≡ₚ definitionOrder /\
  forall l, l ∈ definitionOrder -> is_Some (distanceToEnd s !! l).

(** No finishing time is on record before the run is complete. *)
Definition timesOnlyComplete (s : State) : Prop :=
  isAnimationComplete s = false -> elapsedTimes s = ∅.

(** The previous rankings are a different list from the rankings: empty,
    or the four labels in another order. *)
Definition supersededRankings (s : State) : Prop :=
  rankings s ≡ₚ definitionOrder /\ rankings s <> prevRankings s /\
  (prevRankings s = [] \/ prevRankings s ≡ₚ definitionOrder).

(** What the controls keep true: a complete run is idle, the sliders stay
    in their ranges (lines 320-345) and the banked time is not negative. *)
Definition withinControls (s : State) : Prop :=
  (isAnimationComplete s = true -> animationState s = idle) /\
  0.1 <= animationSpeed s <= 2 /\
  0 <= cycloidParameter s <= 1 /\
  0 <= pausedElapsedTime s.

(** Shape parameter [1], started, frames at [1000] and [7000], paused:
    [3.0] seconds banked of the [4.0] the slowest curve needs. *)
Definition pausedLate : State :=
  step clock
    (step clock
       (step clock
          (step clock (step clock firstPaint (SlideShape 1)) ClickStart)
          (AnimationFrame 1000))
       (AnimationFrame 7000))
    ClickPause.

(** Running the effect once more changes no dependency: the render loop
    is at rest. *)
Definition atFixedPoint (s : State) : Prop :=
  forall t, deps (useEffect (cleanup s) t) = deps s.

(** ** The two cycloids in double precision (lines 46-53 and 64-73)

    Where a statement is about the equality of computed numbers, the
    rounding of IEEE doubles decides it.  This module holds the
    Brachistochrone and Parametric Cycloid entries of [curves] over
    binary64 floats, operation by operation as the source writes them.
    ECMAScript leaves [Math.sin], [Math.cos] and [Math.pow] to the engine
    (implementation-approximated); they are a parameter of the model. *)
Module Double.

(** [Math.PI], the double nearest to pi: [3.141592653589793]. *)
Definition Math_PI : float := 0x1.921fb54442d18p+1%float.

Record MathLib := {
  Math_sin : float -> float;
  Math_cos : float -> float;
  Math_pow : float -> float -> float
}.

Record CurveData := {
  func : float -> float * float;
  color : string;
  time : float
}.

Definition Brachistochrone (m : MathLib) : CurveData :=
  {| func := fun t =>
       let theta := (t * Math_PI)%float in
       (((theta - Math_sin m theta) / Math_PI)%float,
        ((1 - Math_cos m theta) / 2)%float);
     color := "#3b82f6";
     time := 2.0%float |}.

Definition Parametric_Cycloid (m : MathLib) (cycloidParameter : float)
  : CurveData :=
  {| func := fun t =>
       ((t - Math_sin m (Math_PI * t) / Math_PI)%float,
        ((1 - Math_cos m (Math_PI * t)) / 2
         + cycloidParameter * Math_pow m (Math_sin m (Math_PI * t)) 2)%float);
     color := "#f59e0b";
     time := (2.0 * (1 + cycloidParameter))%float |}.

(** A library known at one argument: it answers [sin_theta] and
    [cos_theta], and squares for [Math.pow(x, 2)]. *)
Definition tabulated (sin_theta cos_theta : float) : MathLib :=
  {| Math_sin := fun _ => sin_theta;
     Math_cos := fun _ => cos_theta;
     Math_pow := fun x _ => (x * x)%float |}.

(** The sample progress: the double of the literal [0.0615].  At
    [theta = 0.0615 * Math.PI = 0.19320794819577228], [Math.sin] returns
    [0.19200813652152002] and [Math.cos] returns [0.9813933337401133]. *)
Definition sample_t : float := 0x1.f7ced916872b0p-5%float.
Definition sample_sin : float := 0x1.893b8fd7681a7p-3%float.
Definition sample_cos : float := 0x1.f6792fe1da36ep-1%float.
Definition sample_lib : MathLib := tabulated sample_sin sample_cos.

(** The doubles within two units in the last place of [x]. *)
Definition nearby (x : float) : list float :=
  [PrimFloat.next_down (PrimFloat.next_down x); PrimFloat.next_down x; x;
   PrimFloat.next_up x; PrimFloat.next_up (PrimFloat.next_up x)].

End Double.

(** * Curve model: bounds *)

Lemma curves_cases E lc :
  lc ∈ curves E ->
  lc = ("Brachistochrone"%string, Brachistochrone) \/
  lc = ("Straight Line"%string, Straight_Line) \/
  lc = ("Parabola"%string, Parabola) \/
  lc = ("Parametric Cycloid"%string, Parametric_Cycloid E).
Proof.
  unfold curves. rewrite !elem_of_cons, elem_of_nil. tauto.
Qed.

Lemma sin_le_x x : 0 <= x -> sin x <= x.
Proof.
  intros [H | <-].
  - left. now apply sin_lt_x.
  - rewrite sin_0. lra.
Qed.

Lemma fraction_of_PI a : 0 <= a <= PI -> 0 <= a / PI <= 1.
Proof.
  intros [H0 H1]. pose proof PI_RGT_0 as Hpi. split.
  - apply Rmult_le_pos; [lra | left; now apply Rinv_0_lt_compat].
  - apply (Rmult_le_reg_r PI); [lra|]. unfold Rdiv.
    rewrite Rmult_assoc, Rinv_l by lra. lra.
Qed.

Lemma Brachistochrone_start : func Brachistochrone 0 = (0, 0).
Proof.
  cbn. rewrite Rmult_0_l, sin_0, cos_0. f_equal; lra.
Qed.

Lemma Brachistochrone_end : func Brachistochrone 1 = (1, 1).
Proof.
  cbn. rewrite Rmult_1_l, sin_PI, cos_PI.
  pose proof PI_RGT_0. f_equal; field; lra.
Qed.

Lemma Brachistochrone_square t :
  0 <= t <= 1 -> in_unit_square (func Brachistochrone t).
Proof.
  intros [H0 H1]. pose proof PI_RGT_0 as Hpi.
  assert (0 <= t * PI) as Ha by nra.
  assert (t * PI <= PI) as Hb by nra.
  pose proof (sin_le_x _ Ha). pose proof (sin_ge_0 _ Ha Hb).
  pose proof (COS_bound (t * PI)) as [? ?].
  unfold in_unit_square; cbn. split; [apply fraction_of_PI|]; lra.
Qed.

Lemma Parametric_Cycloid_start E : func (Parametric_Cycloid E) 0 = (0, 0).
Proof.
  cbn. rewrite Rmult_0_r, sin_0, cos_0. f_equal; lra.
Qed.

Lemma Parametric_Cycloid_end E : func (Parametric_Cycloid E) 1 = (1, 1).
Proof.
  cbn. rewrite Rmult_1_r, sin_PI, cos_PI. f_equal; lra.
Qed.

Lemma Parametric_Cycloid_snd E t :
  snd (func (Parametric_Cycloid E) t) =
  (1 - cos (PI * t)) / 2 + E * sin (PI * t) ^ 2.
Proof. reflexivity. Qed.

Lemma sin_pow2 x : sin x ^ 2 = 1 - cos x ^ 2.
Proof.
  pose proof (sin2_cos2 x) as H. unfold Rsqr in H. lra.
Qed.

(** Abscissa and lower bound of the tunable curve, for every [E >= 0]. *)
Lemma Parametric_Cycloid_x E t :
  0 <= t <= 1 -> 0 <= fst (func (Parametric_Cycloid E) t) <= 1.
Proof.
  intros [H0 H1]. pose proof PI_RGT_0 as Hpi.
  assert (0 <= PI * t) as Ha by nra.
  assert (PI * t <= PI) as Hb by nra.
  pose proof (sin_le_x _ Ha) as Hs. pose proof (sin_ge_0 _ Ha Hb) as Hs0.
  cbn.
  assert (0 <= sin (PI * t) / PI <= t) as [? ?]; [|lra].
  split.
  - apply fraction_of_PI. lra.
  - apply (Rmult_le_reg_r PI); [lra|]. unfold Rdiv.
    rewrite Rmult_assoc, Rinv_l by lra. lra.
Qed.

Lemma Parametric_Cycloid_y_lower E t :
  0 <= E -> 0 <= snd (func (Parametric_Cycloid E) t).
Proof.
  intros HE. rewrite Parametric_Cycloid_snd.
  pose proof (COS_bound (PI * t)) as [? ?].
  pose proof (Rmult_le_pos _ _ HE (pow2_ge_0 (sin (PI * t)))). lra.
Qed.




(** Above [1/4] the tunable curve leaves the unit square. *)
Lemma Parametric_Cycloid_leaves_square E :
  1 / 4 < E <= 1 ->
  exists t, 0 <= t <= 1 /\ 1 < snd (func (Parametric_Cycloid E) t).
Proof.
  intros [HE0 HE1].
  set (c := -1 + (1 - / (4 * E))).
  assert (0 < / (4 * E) < 1) as [Hi0 Hi1].
  { split; [apply Rinv_0_lt_compat; lra|].
    rewrite <- Rinv_1. apply Rinv_lt_contravar; lra. }
  assert (-1 <= c <= 1) as Hc by (unfold c; lra).
  pose proof (acos_bound c) as [Ha0 Ha1]. pose proof PI_RGT_0 as Hpi.
  exists (acos c / PI). split.
  - apply fraction_of_PI. lra.
  - rewrite Parametric_Cycloid_snd.
    replace (PI * (acos c / PI)) with (acos c) by (field; lra).
    rewrite sin_pow2, cos_acos by lra.
    assert (E * / (4 * E) = 1 / 4) as HEi by (field; lra).
    unfold c. set (d := / (4 * E)) in *. nra.
Qed.

(** * Stable sorting *)

Section Sorting.
Context {A : Type} (key : A -> R).

Lemma Array_sort_cons x l :
  Array_sort (byKey key) (x :: l)
  = sort_insert (byKey key) x (Array_sort (byKey key) l).
Proof. reflexivity. Qed.

Lemma sort_insert_Permutation x l : sort_insert (byKey key) x l ≡ₚ x :: l.
Proof.
  induction l as [|y l IH]; cbn; [done|].
  destruct (decide (byKey key y x < 0)); [|done].
  rewrite IH. apply Permutation_swap.
Qed.

Lemma Array_sort_Permutation l : Array_sort (byKey key) l ≡ₚ l.
Proof.
  induction l as [|x l IH]; [done|].
  rewrite Array_sort_cons, sort_insert_Permutation. by f_equiv.
Qed.

Lemma sort_insert_sorted x l :
  StronglySorted (ascending key) l ->
  StronglySorted (ascending key) (sort_insert (byKey key) x l).
Proof.
  induction 1 as [|y l Hs IH Hy]; cbn.
  - repeat constructor.
  - unfold byKey at 1. destruct (decide (key y - key x < 0)) as [Hlt | Hge].
    + constructor; [done|].
      rewrite sort_insert_Permutation. constructor; [|done].
      unfold ascending. lra.
    + constructor; [by constructor|].
      constructor; [unfold ascending; lra|].
      eapply Forall_impl; [exact Hy|]. unfold ascending. intros; lra.
Qed.

Lemma Array_sort_sorted l :
  StronglySorted (ascending key) (Array_sort (byKey key) l).
Proof.
  induction l as [|x l IH]; [constructor|].
  rewrite Array_sort_cons. by apply sort_insert_sorted.
Qed.

(** Stability: the elements of any one key keep their order. *)
Lemma sort_insert_filter d x l :
  filter (fun a => key a = d) (sort_insert (byKey key) x l)
  = filter (fun a => key a = d) (x :: l).
Proof.
  induction l as [|y l IH]; cbn; [done|].
  unfold byKey at 1.
  destruct (decide (key y - key x < 0)) as [Hlt | Hge]; [|done].
  rewrite (filter_cons _ y), IH, !filter_cons.
  destruct (decide (key y = d)), (decide (key x = d)); try done. lra.
Qed.

Lemma Array_sort_filter d l :
  filter (fun a => key a = d) (Array_sort (byKey key) l)
  = filter (fun a => key a = d) l.
Proof.
  induction l as [|x l IH]; [done|].
  by rewrite Array_sort_cons, sort_insert_filter, !filter_cons, IH.
Qed.

End Sorting.

Lemma sort_insert_behind {A} (cmp : A -> A -> R) x y l :
  cmp y x < 0 -> sort_insert cmp x (y :: l) = y :: sort_insert cmp x l.
Proof. intros H. cbn. by rewrite decide_True. Qed.

Lemma sort_insert_front {A} (cmp : A -> A -> R) x y l :
  0 <= cmp y x -> sort_insert cmp x (y :: l) = x :: y :: l.
Proof. intros H. cbn. rewrite decide_False; [done | lra]. Qed.

(** * Order of two elements in a list *)

Section Before.
Context {A : Type}.
Implicit Types (l : list A) (a b : A).

Lemma before_filter (P : A -> Prop) `{forall x, Decision (P x)} l a b :
  P a -> P b -> before l a b -> before (filter P l) a b.
Proof.
  intros Ha Hb (l1 & l2 & l3 & ->).
  exists (filter P l1), (filter P l2), (filter P l3).
  rewrite filter_app, filter_cons_True, filter_app, filter_cons_True; done.
Qed.

Lemma before_sublist l k a b : sublist k l -> before k a b -> before l a b.
Proof.
  intros Hsub (k1 & k2 & k3 & ->).
  apply sublist_app_l in Hsub as (l1 & r1 & -> & H1 & Hsub).
  apply sublist_cons_l in Hsub as (m1 & r2 & -> & Hsub).
  apply sublist_app_l in Hsub as (l2 & r3 & -> & H2 & Hsub).
  apply sublist_cons_l in Hsub as (m2 & r4 & -> & Hsub).
  exists (l1 ++ m1), (l2 ++ m2), r4. by rewrite <- !app_assoc.
Qed.

Lemma before_map {B} (f : A -> B) l a b :
  before l a b -> before (f <$> l) (f a) (f b).
Proof.
  intros (l1 & l2 & l3 & ->). exists (f <$> l1), (f <$> l2), (f <$> l3).
  by rewrite fmap_app, fmap_cons, fmap_app, fmap_cons.
Qed.

Lemma before_NoDup_asym l a b : NoDup l -> before l a b -> ~ before l b a.
Proof.
  intros Hnd (l1 & l2 & l3 & ->) (k1 & k2 & k3 & Heq).
  revert k1 Hnd Heq. induction l1 as [|z l1 IH]; intros [|w k1] Hnd Heq;
    cbn in Heq; injection Heq as -> Heq;
    apply NoDup_cons in Hnd as [Hnotin Hnd].
  - apply Hnotin. set_solver.
  - apply Hnotin. rewrite Heq. set_solver.
  - apply Hnotin. set_solver.
  - by apply (IH k1).
Qed.

Lemma before_total l a b :
  a ∈ l -> b ∈ l -> a <> b -> before l a b \/ before l b a.
Proof.
  intros Ha Hb Hne.
  apply list_elem_of_split in Ha as (l1 & l2 & ->).
  apply elem_of_app in Hb as [Hb | Hb].
  - apply list_elem_of_split in Hb as (k1 & k2 & ->). right.
    exists k1, k2, l2. by rewrite <- app_assoc.
  - apply elem_of_cons in Hb as [-> | Hb]; [done|].
    apply list_elem_of_split in Hb as (k1 & k2 & ->). left.
    by exists l1, k1, k2.
Qed.

End Before.

(** * Ranking engine: distances, progress and the sorted entries *)

Lemma distance_of_end : distance_of (1, 1) = 0.
Proof.
  unfold distance_of; cbn [fst snd].
  replace ((1 - 1) ^ 2 + (1 - 1) ^ 2) with 0 by lra. apply sqrt_0.
Qed.

Lemma distance_of_nonneg p : 0 <= distance_of p.
Proof. apply sqrt_pos. Qed.

Lemma distance_of_diag x : x <= 1 -> distance_of (x, x) = sqrt 2 * (1 - x).
Proof.
  intros Hx. unfold distance_of; cbn [fst snd].
  replace ((1 - x) ^ 2 + (1 - x) ^ 2) with (2 * ((1 - x) * (1 - x))) by ring.
  rewrite sqrt_mult by nra. rewrite sqrt_square by lra. reflexivity.
Qed.

Lemma sqrt2_bounds : 1.4142 < sqrt 2 < 1.4143.
Proof.
  split.
  - rewrite <- (sqrt_square 1.4142) by lra. apply sqrt_lt_1; lra.
  - rewrite <- (sqrt_square 1.4143) by lra. apply sqrt_lt_1; lra.
Qed.

Lemma progress_of_done e c : 0 < time c -> time c <= e -> progress_of e c = 1.
Proof.
  intros Hpos Hle. unfold progress_of. apply Rmin_right.
  apply (Rmult_le_reg_r (time c)); [done|]. unfold Rdiv.
  rewrite Rmult_assoc, Rinv_l by lra. lra.
Qed.

Lemma progress_of_running e c :
  0 < time c -> e <= time c -> progress_of e c = e / time c.
Proof.
  intros Hpos Hle. unfold progress_of. apply Rmin_left.
  apply (Rmult_le_reg_r (time c)); [done|]. unfold Rdiv.
  rewrite Rmult_assoc, Rinv_l by lra. lra.
Qed.

Lemma curves_time_pos E lc : -1 < E -> lc ∈ curves E -> 0 < time (snd lc).
Proof.
  intros HE [-> | [-> | [-> | ->]]]%curves_cases; cbn; lra.
Qed.

Lemma curves_ends E lc :
  lc ∈ curves E -> func (snd lc) 0 = (0, 0) /\ func (snd lc) 1 = (1, 1).
Proof.
  intros [-> | [-> | [-> | ->]]]%curves_cases; cbn [snd].
  - split; [apply Brachistochrone_start | apply Brachistochrone_end].
  - split; reflexivity.
  - split; cbn; f_equal; lra.
  - split; [apply Parametric_Cycloid_start | apply Parametric_Cycloid_end].
Qed.

Lemma progressEntry_done E e lc :
  -1 < E -> lc ∈ curves E -> time (snd lc) <= e ->
  progressEntry e lc = mkEntry (fst lc) 1 0.
Proof.
  intros HE Hin Hle. unfold progressEntry.
  rewrite progress_of_done by eauto using curves_time_pos.
  destruct (curves_ends _ _ Hin) as [_ ->]. by rewrite distance_of_end.
Qed.

Lemma maxTime_eq E : maxTime E = Rmax 2.5 (2.0 * (1 + E)).
Proof.
  unfold maxTime, curves, Math_max; cbn.
  rewrite (Rmax_right 2.0 2.5) by lra. rewrite (Rmax_left 2.5 2.1) by lra.
  reflexivity.
Qed.

(** ** [drawFrame], field by field *)

Lemma drawFrame_rankings s ts :
  rankings (drawFrame s ts)
  = newRankings (cycloidParameter s) (elapsedTime s ts).
Proof.
  unfold drawFrame; cbn [rankings].
  fold (newRankings (cycloidParameter s) (elapsedTime s ts)).
  case_bool_decide as H; congruence.
Qed.

Lemma drawFrame_prevRankings s ts :
  prevRankings (drawFrame s ts)
  = if bool_decide (newRankings (cycloidParameter s) (elapsedTime s ts)
                    <> rankings s)
    then rankings s else prevRankings s.
Proof. reflexivity. Qed.

Lemma progressData_Permutation E e :
  progressData E e ≡ₚ progressEntry e <$> curves E.
Proof. apply (Array_sort_Permutation e_distance). Qed.

Lemma progressData_sorted E e :
  StronglySorted (ascending e_distance) (progressData E e).
Proof. apply (Array_sort_sorted e_distance). Qed.

Lemma progressData_filter E e d :
  filter (fun a => e_distance a = d) (progressData E e)
  = filter (fun a => e_distance a = d) (progressEntry e <$> curves E).
Proof. apply (Array_sort_filter e_distance). Qed.

Lemma progressData_labels E e :
  e_label <$> progressData E e ≡ₚ fst <$> curves E.
Proof.
  rewrite progressData_Permutation. by rewrite <- list_fmap_compose.
Qed.

Lemma curves_labels E :
  fst <$> curves E
  = ["Brachistochrone"; "Straight Line"; "Parabola"; "Parametric Cycloid"]%string.
Proof. reflexivity. Qed.

Lemma curves_labels_NoDup E : NoDup (fst <$> curves E).
Proof.
  rewrite curves_labels. compute_done.
Qed.

Lemma newRankings_NoDup E e : NoDup (newRankings E e).
Proof.
  unfold newRankings. rewrite progressData_labels. apply curves_labels_NoDup.
Qed.

Lemma progressData_stable E e ca cb :
  before (curves E) ca cb ->
  e_distance (progressEntry e ca) = e_distance (progressEntry e cb) ->
  before (progressData E e) (progressEntry e ca) (progressEntry e cb).
Proof.
  intros Hb Heq.
  apply (before_sublist _
           (filter (fun a => e_distance a = e_distance (progressEntry e ca))
                   (progressData E e))); [apply sublist_filter|].
  rewrite progressData_filter.
  apply before_filter; [done | done |]. by apply before_map.
Qed.

Lemma progressData_unfold E e :
  progressData E e =
  sort_insert byDistance
    (progressEntry e ("Brachistochrone"%string, Brachistochrone))
    (sort_insert byDistance
       (progressEntry e ("Straight Line"%string, Straight_Line))
       (sort_insert byDistance
          (progressEntry e ("Parabola"%string, Parabola))
          [progressEntry e
             ("Parametric Cycloid"%string, Parametric_Cycloid E)])).
Proof. reflexivity. Qed.

Lemma in_curves_B E : ("Brachistochrone"%string, Brachistochrone) ∈ curves E.
Proof. unfold curves. set_solver. Qed.

Lemma in_curves_L E : ("Straight Line"%string, Straight_Line) ∈ curves E.
Proof. unfold curves. set_solver. Qed.

Lemma in_curves_P E : ("Parabola"%string, Parabola) ∈ curves E.
Proof. unfold curves. set_solver. Qed.

Lemma in_curves_PC E :
  ("Parametric Cycloid"%string, Parametric_Cycloid E) ∈ curves E.
Proof. unfold curves. set_solver. Qed.

Create HintDb curves.
#[local] Hint Resolve in_curves_B in_curves_L in_curves_P in_curves_PC : curves.

(** Side conditions of the sorting steps: a comparison of two entries. *)
Ltac by_distance := cbv [byDistance e_distance]; lra.

Lemma progressEntry_line e :
  0 <= e <= 2.5 ->
  progressEntry e ("Straight Line"%string, Straight_Line)
  = mkEntry "Straight Line" (e / 2.5) (sqrt 2 * (1 - e / 2.5)).
Proof.
  intros He. unfold progressEntry; cbn [fst snd].
  rewrite progress_of_running by (cbn; lra). cbn [time func Straight_Line].
  rewrite distance_of_diag by lra. reflexivity.
Qed.

(** All four curves at distance zero: the definition order. *)
Lemma progressData_all_done E e :
  -1 < E -> maxTime E <= e ->
  progressData E e =
  [ mkEntry "Brachistochrone" 1 0; mkEntry "Straight Line" 1 0;
    mkEntry "Parabola" 1 0; mkEntry "Parametric Cycloid" 1 0 ].
Proof.
  intros HE Hmax. rewrite maxTime_eq in Hmax.
  pose proof (Rmax_l 2.5 (2.0 * (1 + E))).
  pose proof (Rmax_r 2.5 (2.0 * (1 + E))).
  rewrite progressData_unfold.
  rewrite (progressEntry_done E e _ HE (in_curves_B E)) by (cbn; lra).
  rewrite (progressEntry_done E e _ HE (in_curves_L E)) by (cbn; lra).
  rewrite (progressEntry_done E e _ HE (in_curves_P E)) by (cbn; lra).
  rewrite (progressEntry_done E e _ HE (in_curves_PC E)) by (cbn; lra).
  cbn [fst]. rewrite !sort_insert_front by by_distance.
  reflexivity.
Qed.

(** Just before the straight line arrives (here for the default shape
    parameter): the three finished curves, then the straight line. *)
Lemma progressData_line_last e :
  2.4 <= e < 2.5 ->
  progressData 0.2 e =
  [ mkEntry "Brachistochrone" 1 0; mkEntry "Parabola" 1 0;
    mkEntry "Parametric Cycloid" 1 0;
    mkEntry "Straight Line" (e / 2.5) (sqrt 2 * (1 - e / 2.5)) ].
Proof.
  intros He. assert (-1 < 0.2) as HE by lra.
  pose proof sqrt2_bounds as [Hs _].
  rewrite progressData_unfold.
  rewrite (progressEntry_done _ e _ HE (in_curves_B _)) by (cbn; lra).
  rewrite (progressEntry_done _ e _ HE (in_curves_P _)) by (cbn; lra).
  rewrite (progressEntry_done _ e _ HE (in_curves_PC _)) by (cbn; lra).
  rewrite progressEntry_line by lra. cbn [fst].
  assert (0 < sqrt 2 * (1 - e / 2.5)) as Hd by (apply Rmult_lt_0_compat; lra).
  rewrite (sort_insert_front _ (mkEntry "Parabola" _ _))
    by by_distance.
  rewrite !(sort_insert_behind _ (mkEntry "Straight Line" _ _))
    by by_distance.
  rewrite (sort_insert_front _ (mkEntry "Brachistochrone" _ _))
    by by_distance.
  reflexivity.
Qed.

Lemma newRankings_stable E e ca cb :
  before (curves E) ca cb ->
  e_distance (progressEntry e ca) = e_distance (progressEntry e cb) ->
  before (newRankings E e) (fst ca) (fst cb).
Proof.
  intros Hb Heq. unfold newRankings.
  apply (before_map e_label _ (progressEntry e ca) (progressEntry e cb)).
  by apply progressData_stable.
Qed.

(** * The maps written by a frame *)

Lemma newDistances_other prev pd l :
  l ∉ e_label <$> pd -> newDistances prev pd !! l = prev !! l.
Proof.
  revert prev. induction pd as [|e pd IH]; intros prev Hl; [done|].
  rewrite fmap_cons, not_elem_of_cons in Hl. destruct Hl as [Hne Hl].
  unfold newDistances in *; cbn [foldl]. rewrite IH by done.
  by rewrite lookup_insert_ne.
Qed.

Lemma newDistances_lookup prev pd e :
  NoDup (e_label <$> pd) -> e ∈ pd ->
  newDistances prev pd !! e_label e = Some (e_distance e).
Proof.
  revert prev. induction pd as [|x pd IH]; intros prev Hnd Hin.
  - by apply elem_of_nil in Hin.
  - rewrite fmap_cons in Hnd. apply NoDup_cons in Hnd as [Hx Hnd].
    apply elem_of_cons in Hin as [-> | Hin].
    + change (newDistances prev (x :: pd))
        with (newDistances (<[e_label x := e_distance x]> prev) pd).
      rewrite newDistances_other by done. by rewrite lookup_insert_eq.
    + by apply IH.
Qed.

Lemma newTimes_other cs prev pd l :
  l ∉ e_label <$> pd -> newTimes cs prev pd !! l = prev !! l.
Proof.
  revert prev. induction pd as [|e pd IH]; intros prev Hl; [done|].
  rewrite fmap_cons, not_elem_of_cons in Hl. destruct Hl as [Hne Hl].
  unfold newTimes in *; cbn [foldl]. rewrite IH by done.
  destruct (curve_of cs (e_label e)); [|done]. by rewrite lookup_insert_ne.
Qed.

Lemma newTimes_lookup cs prev pd l c :
  NoDup (e_label <$> pd) -> l ∈ e_label <$> pd -> curve_of cs l = Some c ->
  newTimes cs prev pd !! l = Some (toFixed (time c) 2 +:+ "s")%string.
Proof.
  revert prev. induction pd as [|x pd IH]; intros prev Hnd Hin Hc.
  - by apply elem_of_nil in Hin.
  - rewrite fmap_cons in Hnd, Hin. apply NoDup_cons in Hnd as [Hx Hnd].
    apply elem_of_cons in Hin as [-> | Hin].
    + unfold newTimes; cbn [foldl]. rewrite Hc.
      fold (newTimes cs
              (<[e_label x := (toFixed (time c) 2 +:+ "s")%string]> prev) pd).
      rewrite newTimes_other by done. by rewrite lookup_insert_eq.
    + unfold newTimes; cbn [foldl]. by apply IH.
Qed.

Lemma curve_of_curves E lc :
  lc ∈ curves E -> curve_of (curves E) (fst lc) = Some (snd lc).
Proof.
  intros [-> | [-> | [-> | ->]]]%curves_cases; reflexivity.
Qed.

Lemma progressData_NoDup E e : NoDup (e_label <$> progressData E e).
Proof. apply newRankings_NoDup. Qed.

Lemma progressData_elem E e lc :
  lc ∈ curves E -> progressEntry e lc ∈ progressData E e.
Proof.
  intros Hin. rewrite progressData_Permutation. by apply list_elem_of_fmap_2.
Qed.

Lemma progressData_label E e lc :
  lc ∈ curves E -> fst lc ∈ e_label <$> progressData E e.
Proof.
  intros Hin. rewrite progressData_labels. by apply (list_elem_of_fmap_2 fst).
Qed.

Lemma drawFrame_distanceToEnd s ts lc :
  lc ∈ curves (cycloidParameter s) ->
  distanceToEnd (drawFrame s ts) !! fst lc
  = Some (e_distance (progressEntry (elapsedTime s ts) lc)).
Proof.
  intros Hin. unfold drawFrame; cbn [distanceToEnd].
  apply (newDistances_lookup _ _ (progressEntry (elapsedTime s ts) lc)).
  - apply progressData_NoDup.
  - by apply progressData_elem.
Qed.

Lemma drawFrame_elapsedTimes s ts lc :
  isAnimationComplete s = true -> lc ∈ curves (cycloidParameter s) ->
  elapsedTimes (drawFrame s ts) !! fst lc
  = Some (toFixed (time (snd lc)) 2 +:+ "s")%string.
Proof.
  intros Hc Hin. unfold drawFrame; cbn [elapsedTimes]. rewrite Hc.
  apply newTimes_lookup.
  - apply progressData_NoDup.
  - by apply progressData_label.
  - by apply curve_of_curves.
Qed.

Lemma drawFrame_elapsedTimes_live s ts :
  isAnimationComplete s = false ->
  elapsedTimes (drawFrame s ts) = elapsedTimes s.
Proof. intros Hc. unfold drawFrame; cbn [elapsedTimes]. by rewrite Hc. Qed.

(** * The render loop *)

Lemma elapsedTime_resting s ts :
  animationState s <> running -> elapsedTime s ts = pausedElapsedTime s.
Proof. unfold elapsedTime. by destruct (animationState s). Qed.

Lemma elapsedTime_cleanup b s ts :
  elapsedTime (setFrameRequested b s) ts = elapsedTime s ts.
Proof. reflexivity. Qed.

Lemma deps_setFrameRequested b s : deps (setFrameRequested b s) = deps s.
Proof. reflexivity. Qed.

Lemma deps_changed_refl s : deps_changed s s = false.
Proof.
  unfold deps_changed. by rewrite bool_decide_false by (intros H; by apply H).
Qed.

Lemma deps_changed_eq old s : deps old = deps s -> deps_changed old s = false.
Proof.
  intros H. unfold deps_changed. rewrite bool_decide_false; [done|].
  intros Hne. by apply Hne.
Qed.

Lemma deps_phase a b :
  animationState a <> animationState b -> deps a <> deps b.
Proof. intros Hne Heq. apply Hne. unfold deps in Heq. congruence. Qed.

Lemma deps_shape a b :
  cycloidParameter a <> cycloidParameter b -> deps a <> deps b.
Proof. intros Hne Heq. apply Hne. unfold deps in Heq. congruence. Qed.

Lemma deps_banked a b :
  pausedElapsedTime a <> pausedElapsedTime b -> deps a <> deps b.
Proof. intros Hne Heq. apply Hne. unfold deps in Heq. congruence. Qed.

Lemma useEffect_running s now :
  animationState s = running -> useEffect s now = setFrameRequested true s.
Proof. unfold useEffect. by intros ->. Qed.

Lemma useEffect_resting s now :
  animationState s <> running -> useEffect s now = drawFrame s now.
Proof. unfold useEffect. by destruct (animationState s). Qed.

Lemma settle_unchanged fuel now i old s :
  deps old = deps s -> settle fuel now i old s = s.
Proof.
  intros H. destruct fuel; [done|]. cbn. by rewrite deps_changed_eq.
Qed.

Lemma settle_running fuel now i old s :
  animationState s = running ->
  settle (S fuel) now i old s
  = if deps_changed old s then setFrameRequested true s else s.
Proof.
  intros Hr. cbn [settle]. destruct (deps_changed old s); [|done].
  rewrite useEffect_running by done. by apply settle_unchanged.
Qed.

Lemma settle_changed fuel now i old s :
  deps old <> deps s ->
  settle (S fuel) now i old s
  = settle fuel now (S i) s (useEffect (cleanup s) (now i)).
Proof.
  intros H. cbn [settle]. unfold deps_changed. by rewrite bool_decide_true.
Qed.

(** Whatever one run of the effect preserves, the loop preserves. *)
Lemma settle_ind (P : State -> Prop) :
  (forall s now, P s -> P (useEffect (cleanup s) now)) ->
  forall fuel now i old s, P s -> P (settle fuel now i old s).
Proof.
  intros Hstep fuel now. induction fuel as [|fuel IH]; intros i old s HP; [done|].
  cbn [settle]. destruct (deps_changed old s); [|done]. apply IH, Hstep, HP.
Qed.

Lemma drawFrame_resting s now :
  animationState s <> running ->
  let s' := drawFrame s now in
  animationState s' = (if finishedAt s then idle else animationState s) /\
  isAnimationComplete s' = (if finishedAt s then true else isAnimationComplete s) /\
  pausedElapsedTime s' = pausedElapsedTime s /\
  animationSpeed s' = animationSpeed s /\
  cycloidParameter s' = cycloidParameter s /\
  rankings s' = newRankings (cycloidParameter s) (pausedElapsedTime s) /\
  frameRequested s' = frameRequested s.
Proof.
  intros Hr s'. subst s'.
  rewrite drawFrame_rankings. unfold drawFrame.
  cbn [animationState isAnimationComplete pausedElapsedTime animationSpeed
       cycloidParameter frameRequested].
  rewrite elapsedTime_resting by done.
  fold (finishedAt s).
  rewrite (bool_decide_false (animationState s = running)) by done.
  repeat split; by destruct (finishedAt s).
Qed.

Lemma redraw_fields s now :
  animationState s <> running ->
  let s' := drawFrame (cleanup s) now in
  animationState s' = (if finishedAt s then idle else animationState s) /\
  isAnimationComplete s' = (if finishedAt s then true else isAnimationComplete s) /\
  pausedElapsedTime s' = pausedElapsedTime s /\
  animationSpeed s' = animationSpeed s /\
  cycloidParameter s' = cycloidParameter s /\
  rankings s' = newRankings (cycloidParameter s) (pausedElapsedTime s) /\
  frameRequested s' = false.
Proof.
  intros Hr. exact (drawFrame_resting (cleanup s) now Hr).
Qed.

Lemma redraw_resting s now :
  animationState s <> running ->
  animationState (drawFrame (cleanup s) now) <> running.
Proof.
  intros Hr. destruct (redraw_fields s now Hr) as (-> & _).
  by destruct (finishedAt s).
Qed.

Lemma redraw_twice s now now' :
  animationState s <> running ->
  deps (drawFrame (cleanup (drawFrame (cleanup s) now)) now')
  = deps (drawFrame (cleanup s) now).
Proof.
  intros Hr.
  pose proof (redraw_resting s now Hr) as Hr'.
  destruct (redraw_fields s now Hr) as (Ha & Hc & Hp & Hv & HE & Hk & _).
  destruct (redraw_fields _ now' Hr') as (Ha' & Hc' & Hp' & Hv' & HE' & Hk' & _).
  unfold deps. rewrite Ha', Hc', Hp', Hv', HE', Hk'.
  assert (finishedAt (drawFrame (cleanup s) now) = finishedAt s) as ->.
  { unfold finishedAt. by rewrite HE, Hp. }
  rewrite Ha, Hc, Hp, HE, Hk. by destruct (finishedAt s).
Qed.

(** Three rounds bring the loop to rest: more fuel changes nothing. *)
Lemma settle_enough fuel now i old s :
  settle (rounds + fuel) now i old s = settle rounds now i old s.
Proof.
  destruct (decide (animationState s = running)) as [Hr | Hr].
  - change (rounds + fuel)%nat with (S (2 + fuel)). unfold rounds.
    by rewrite !settle_running.
  - unfold rounds. cbn [Nat.add settle].
    destruct (deps_changed old s); [|done].
    rewrite useEffect_resting by done.
    destruct (deps_changed s (drawFrame (cleanup s) (now i))); [|done].
    rewrite useEffect_resting by (by apply redraw_resting).
    rewrite deps_changed_eq by (symmetry; by apply redraw_twice).
    by destruct fuel.
Qed.

(** * The clock and the frame callback *)

Lemma or_else_self a ts : a = None \/ a = Some ts \/ a = Some 0 -> or_else a ts = ts.
Proof.
  intros [-> | [-> | ->]]; cbn; [done | by destruct (decide (ts = 0)) |].
  by rewrite decide_True.
Qed.

Lemma or_else_Some v ts : v <> 0 -> or_else (Some v) ts = v.
Proof. intros H. cbn. by rewrite decide_False. Qed.

(** The first frame after a start or a resume contributes no time. *)
Lemma elapsedTime_first s ts :
  animationState s = running ->
  startTimeRef s = None \/ lastTimestampRef s = None ->
  elapsedTime s ts = pausedElapsedTime s.
Proof.
  intros Hr Hnone. unfold elapsedTime, lastSeen. rewrite Hr.
  rewrite or_else_self; [lra|].
  destruct Hnone as [-> | Hl]; [tauto|].
  destruct (startTimeRef s); tauto.
Qed.

Lemma elapsedTime_next s ts t0 last :
  animationState s = running ->
  startTimeRef s = Some t0 -> lastTimestampRef s = Some last -> last <> 0 ->
  elapsedTime s ts
  = pausedElapsedTime s + (ts - last) / 1000 * animationSpeed s.
Proof.
  intros Hr Hs Hl Hz. unfold elapsedTime, lastSeen.
  by rewrite Hr, Hs, Hl, or_else_Some.
Qed.

(** A running frame that does not finish the run. *)
Lemma drawFrame_running s ts :
  animationState s = running ->
  elapsedTime s ts < maxTime (cycloidParameter s) ->
  let s' := drawFrame s ts in
  animationState s' = running /\
  pausedElapsedTime s' = elapsedTime s ts /\
  lastTimestampRef s' = Some ts /\
  (exists t0, startTimeRef s' = Some t0) /\
  frameRequested s' = true /\
  animationSpeed s' = animationSpeed s /\
  cycloidParameter s' = cycloidParameter s /\
  isAnimationComplete s' = isAnimationComplete s /\
  rankings s' = newRankings (cycloidParameter s) (elapsedTime s ts) /\
  prevRankings s'
  = (if bool_decide (newRankings (cycloidParameter s) (elapsedTime s ts)
                     <> rankings s)
     then rankings s else prevRankings s).
Proof.
  intros Hr Hlt s'. subst s'. rewrite drawFrame_rankings, drawFrame_prevRankings.
  unfold drawFrame.
  cbn [animationState pausedElapsedTime lastTimestampRef startTimeRef
       frameRequested animationSpeed cycloidParameter isAnimationComplete].
  rewrite (bool_decide_false (maxTime _ <= _)) by lra.
  rewrite (bool_decide_true (animationState s = running)) by done.
  repeat split; try done. destruct (startTimeRef s); eauto.
Qed.

Lemma drawFrame_banks s ts :
  animationState s = running ->
  elapsedTime s ts < maxTime (cycloidParameter s) ->
  pausedElapsedTime (drawFrame s ts) = elapsedTime s ts.
Proof.
  intros Hr Hlt. by destruct (drawFrame_running s ts Hr Hlt) as (_ & ? & _).
Qed.

(** A frame that finishes the run. *)
Lemma drawFrame_finishing s ts :
  maxTime (cycloidParameter s) <= elapsedTime s ts ->
  let s' := drawFrame s ts in
  animationState s' = idle /\
  isAnimationComplete s' = true /\
  pausedElapsedTime s' = pausedElapsedTime s /\
  frameRequested s' = frameRequested s /\
  animationSpeed s' = animationSpeed s /\
  cycloidParameter s' = cycloidParameter s.
Proof.
  intros Hle s'. subst s'. unfold drawFrame.
  cbn [animationState pausedElapsedTime frameRequested animationSpeed
       cycloidParameter isAnimationComplete].
  by rewrite (bool_decide_true (maxTime _ <= _)) by done.
Qed.

Lemma step_Frame_running now s ts :
  animationState s = running -> frameRequested s = true ->
  elapsedTime s ts < maxTime (cycloidParameter s) ->
  let s' := step now s (AnimationFrame ts) in
  animationState s' = running /\
  pausedElapsedTime s' = elapsedTime s ts /\
  lastTimestampRef s' = Some ts /\
  (exists t0, startTimeRef s' = Some t0) /\
  frameRequested s' = true /\
  animationSpeed s' = animationSpeed s /\
  cycloidParameter s' = cycloidParameter s /\
  isAnimationComplete s' = isAnimationComplete s /\
  rankings s' = newRankings (cycloidParameter s) (elapsedTime s ts) /\
  prevRankings s'
  = (if bool_decide (newRankings (cycloidParameter s) (elapsedTime s ts)
                     <> rankings s)
     then rankings s else prevRankings s).
Proof.
  intros Hr Hf Hlt s'. subst s'. unfold step, handle. rewrite Hf.
  pose proof (drawFrame_running (setFrameRequested false s) ts Hr Hlt) as H.
  cbn zeta in H.
  destruct H as (Ha & Hp & Hl & Hs & Hq & Hv & HE & Hc & Hk & Hpr).
  unfold rounds. rewrite settle_running by done.
  destruct (deps_changed _ _); repeat split; done.
Qed.

Lemma step_Start now s :
  animationState s <> running ->
  step now s ClickStart = setFrameRequested true (handleStartAnimation s).
Proof.
  intros Hr. unfold step, handle, rounds. rewrite settle_running by done.
  unfold deps_changed. rewrite bool_decide_true; [done|].
  unfold deps; cbn. congruence.
Qed.

Lemma step_Resume now s :
  animationState s <> running ->
  step now s ClickResume = setFrameRequested true (handleResumeAnimation s).
Proof.
  intros Hr. unfold step, handle, rounds. rewrite settle_running by done.
  unfold deps_changed. rewrite bool_decide_true; [done|].
  unfold deps; cbn. congruence.
Qed.

Lemma step_Pause now s :
  animationState s = running ->
  pausedElapsedTime s < maxTime (cycloidParameter s) ->
  let s' := step now s ClickPause in
  animationState s' = paused /\
  pausedElapsedTime s' = pausedElapsedTime s /\
  animationSpeed s' = animationSpeed s /\
  cycloidParameter s' = cycloidParameter s /\
  isAnimationComplete s' = isAnimationComplete s.
Proof.
  intros Hr Hlt. unfold step, handle.
  apply (settle_ind (fun x =>
    animationState x = paused /\
    pausedElapsedTime x = pausedElapsedTime s /\
    animationSpeed x = animationSpeed s /\
    cycloidParameter x = cycloidParameter s /\
    isAnimationComplete x = isAnimationComplete s)); [|done].
  intros x t (Ha & Hp & Hv & HE & Hc).
  assert (animationState x <> running) as Hx by congruence.
  rewrite useEffect_resting by done.
  destruct (redraw_fields x t Hx) as (Ha' & Hc' & Hp' & Hv' & HE' & _).
  assert (finishedAt x = false) as Hfin.
  { unfold finishedAt. rewrite HE, Hp. apply bool_decide_false. lra. }
  rewrite Hfin in Ha', Hc'. rewrite Ha', Hc', Hp', Hv', HE'. done.
Qed.

(** * Ties and the longest total time *)

Lemma maxTime_default : maxTime 0.2 = 2.5.
Proof. rewrite maxTime_eq. apply Rmax_left. lra. Qed.

Lemma maxTime_pos E : 0 < maxTime E.
Proof. rewrite maxTime_eq. pose proof (Rmax_l 2.5 (2.0 * (1 + E))). lra. Qed.

Lemma distance_of_start : distance_of (0, 0) = sqrt 2.
Proof. unfold distance_of; cbn [fst snd]. f_equal. lra. Qed.

Lemma progressEntry_start E lc :
  lc ∈ curves E -> progressEntry 0 lc = mkEntry (fst lc) 0 (sqrt 2).
Proof.
  intros Hin. unfold progressEntry.
  assert (progress_of 0 (snd lc) = 0) as ->.
  { unfold progress_of, Rdiv. rewrite Rmult_0_l. apply Rmin_left. lra. }
  destruct (curves_ends _ _ Hin) as [-> _]. by rewrite distance_of_start.
Qed.

(** At elapsed time zero all four curves tie at [sqrt 2]. *)
Lemma progressData_start E :
  progressData E 0 =
  [ mkEntry "Brachistochrone" 0 (sqrt 2); mkEntry "Straight Line" 0 (sqrt 2);
    mkEntry "Parabola" 0 (sqrt 2); mkEntry "Parametric Cycloid" 0 (sqrt 2) ].
Proof.
  rewrite progressData_unfold.
  rewrite (progressEntry_start E _ (in_curves_B E)).
  rewrite (progressEntry_start E _ (in_curves_L E)).
  rewrite (progressEntry_start E _ (in_curves_P E)).
  rewrite (progressEntry_start E _ (in_curves_PC E)).
  cbn [fst]. rewrite !sort_insert_front by by_distance.
  reflexivity.
Qed.

Lemma newRankings_start E : newRankings E 0 = definitionOrder.
Proof. unfold newRankings. by rewrite progressData_start. Qed.

Lemma newRankings_all_done E e :
  -1 < E -> maxTime E <= e -> newRankings E e = definitionOrder.
Proof. intros. unfold newRankings. by rewrite progressData_all_done. Qed.

Lemma newRankings_line_last e :
  2.4 <= e < 2.5 -> newRankings 0.2 e = lateOrder.
Proof. intros. unfold newRankings. by rewrite progressData_line_last. Qed.

Lemma redraw_prevRankings x t :
  animationState x <> running ->
  prevRankings (drawFrame (cleanup x) t)
  = if bool_decide (newRankings (cycloidParameter x) (pausedElapsedTime x)
                    <> rankings x)
    then rankings x else prevRankings x.
Proof.
  intros Hr. rewrite drawFrame_prevRankings.
  change (elapsedTime (cleanup x) t) with (elapsedTime x t).
  by rewrite elapsedTime_resting.
Qed.

(** * Sample runs: states reached from the first paint *)

Lemma redraw_config v E x t :
  animationState x = idle -> pausedElapsedTime x = 0 ->
  animationSpeed x = v -> cycloidParameter x = E ->
  isAnimationComplete x = false ->
  config v E (drawFrame (cleanup x) t) /\
  rankings (drawFrame (cleanup x) t) = definitionOrder.
Proof.
  intros Ha Hp Hv HE Hc.
  assert (animationState x <> running) as Hr by congruence.
  destruct (redraw_fields x t Hr) as (Ha' & Hc' & Hp' & Hv' & HE' & Hk' & Hf').
  assert (finishedAt x = false) as Hfin.
  { unfold finishedAt. rewrite Hp. apply bool_decide_false.
    pose proof (maxTime_pos (cycloidParameter x)). lra. }
  rewrite Hfin in Ha', Hc'. rewrite Hp, newRankings_start in Hk'.
  unfold config. by rewrite Ha', Hc', Hp', Hv', HE', Hf', Hk'.
Qed.

Lemma settle_config v E fuel now i old x :
  config v E x -> config v E (settle fuel now i old x).
Proof.
  apply (settle_ind (config v E)). clear x.
  intros x t (Ha & Hp & Hv & HE & Hc & _).
  rewrite useEffect_resting by (cbn; congruence).
  by apply redraw_config.
Qed.

Lemma mount_atRest now : atRest (mount now).
Proof.
  unfold mount. apply (settle_ind atRest).
  - intros x t ((Ha & Hp & Hv & HE & Hc & _) & Hk & Hq).
    rewrite useEffect_resting by (cbn; congruence).
    destruct (redraw_config 0.5 0.2 x t Ha Hp Hv HE Hc) as [Hcfg Hk'].
    split; [done|]. split; [done|].
    rewrite redraw_prevRankings by congruence.
    rewrite HE, Hp, newRankings_start, Hk.
    by rewrite bool_decide_false by (by intros H; apply H).
  - change (useEffect initial (now 0%nat))
      with (drawFrame (cleanup initial) (now 0%nat)).
    destruct (redraw_config 0.5 0.2 initial (now 0%nat)) as [Hcfg Hk'];
      try reflexivity.
    split; [done|]. split; [done|].
    rewrite redraw_prevRankings by discriminate.
    change (rankings initial) with (@nil string).
    change (prevRankings initial) with (@nil string).
    by destruct (bool_decide _).
Qed.

Lemma step_Speed_config now x v E v' :
  config v E x -> config v' E (step now x (SlideSpeed v')).
Proof.
  intros (Ha & Hp & Hv & HE & Hc & Hf). unfold step, handle.
  by apply settle_config.
Qed.

Lemma step_Shape_config now x v E E' :
  config v E x -> config v E' (step now x (SlideShape E')).
Proof.
  intros (Ha & Hp & Hv & HE & Hc & Hf). unfold step, handle.
  by apply settle_config.
Qed.

(** [start()] and the first frame. *)
Lemma started_once now s v E t1 :
  config v E s ->
  let s' := step now (step now s ClickStart) (AnimationFrame t1) in
  underway v E 0 t1 s' /\ rankings s' = definitionOrder.
Proof.
  intros (Ha & Hp & Hv & HE & Hc & Hf).
  rewrite step_Start by congruence.
  set (s1 := setFrameRequested true (handleStartAnimation s)).
  assert (elapsedTime s1 t1 = 0) as He1 by (by apply elapsedTime_first; auto).
  destruct (step_Frame_running now s1 t1 eq_refl eq_refl)
    as (Ha2 & Hp2 & Hl2 & Hs2 & Hf2 & Hv2 & HE2 & Hc2 & Hk2 & _).
  { rewrite He1. apply maxTime_pos. }
  rewrite He1 in Hp2, Hk2. rewrite newRankings_start in Hk2.
  cbn zeta. split; [|done]. unfold underway.
  rewrite Ha2, Hp2, Hl2, Hf2, Hv2, HE2, Hc2. by repeat split.
Qed.

(** [start()], the first frame at [t1] and a second frame at [t2]. *)
Lemma started_run now s v E t1 t2 :
  config v E s -> t1 <> 0 -> (t2 - t1) / 1000 * v < maxTime E ->
  let e := (t2 - t1) / 1000 * v in
  let s' :=
    step now (step now (step now s ClickStart) (AnimationFrame t1))
      (AnimationFrame t2) in
  underway v E e t2 s' /\
  rankings s' = newRankings E e /\
  (newRankings E e <> definitionOrder -> prevRankings s' = definitionOrder).
Proof.
  intros Hcfg Ht1 Hlt e s'. subst s'.
  destruct (started_once now s v E t1 Hcfg)
    as [(Ha & Hp & Hl & (t0 & Hs) & Hf & Hv & HE & Hc) Hk].
  set (s1 := step now (step now s ClickStart) (AnimationFrame t1)) in *.
  assert (elapsedTime s1 t2 = e) as He.
  { rewrite (elapsedTime_next s1 t2 t0 t1) by done.
    rewrite Hp, Hv. unfold e. lra. }
  destruct (step_Frame_running now s1 t2 Ha Hf)
    as (Ha2 & Hp2 & Hl2 & Hs2 & Hf2 & Hv2 & HE2 & Hc2 & Hk2 & Hq2).
  { by rewrite He, HE. }
  rewrite He, HE in Hk2, Hq2. rewrite He in Hp2. rewrite Hk in Hq2.
  split; [|split; [done|]].
  - unfold underway. rewrite Ha2, Hp2, Hl2, Hf2, Hv2, HE2, Hc2. by repeat split.
  - intros Hne. by rewrite Hq2, bool_decide_true.
Qed.

Lemma firstPaint_config : config 0.5 0.2 firstPaint.
Proof. destruct (mount_atRest clock) as [H _]. exact H. Qed.

Lemma lateRun_fields :
  underway 0.5 0.2 2.4 5800 lateRun /\
  rankings lateRun = lateOrder /\ prevRankings lateRun = definitionOrder.
Proof.
  assert (1000 <> 0) as H0 by lra.
  assert ((5800 - 1000) / 1000 * 0.5 = 2.4) as H1 by lra.
  assert ((5800 - 1000) / 1000 * 0.5 < maxTime 0.2) as H2
    by (rewrite maxTime_default; lra).
  assert (2.4 <= 2.4 < 2.5) as H3 by lra.
  unfold lateRun.
  destruct (started_run clock firstPaint 0.5 0.2 1000 5800
              firstPaint_config H0 H2) as (Hu & Hk & Hq).
  rewrite H1 in Hu, Hk, Hq. rewrite (newRankings_line_last _ H3) in Hk, Hq.
  split; [exact Hu|]. split; [exact Hk|]. apply Hq. discriminate.
Qed.

Lemma oneSecondIn_fields : underway 1 0.2 1 2000 oneSecondIn.
Proof.
  assert (1000 <> 0) as H0 by lra.
  assert ((2000 - 1000) / 1000 * 1 = 1) as H1 by lra.
  assert ((2000 - 1000) / 1000 * 1 < maxTime 0.2) as H2
    by (rewrite maxTime_default; lra).
  unfold oneSecondIn.
  destruct (started_run clock _ 1 0.2 1000 2000
              (step_Speed_config clock _ _ _ 1 firstPaint_config) H0 H2)
    as (Hu & _).
  rewrite H1 in Hu. exact Hu.
Qed.

Lemma scenarioTwo_fields : underway 1 0 0 1000 scenarioTwo.
Proof.
  unfold scenarioTwo.
  destruct (started_once clock _ 1 0 1000
              (step_Speed_config clock _ _ _ 1
                 (step_Shape_config clock _ _ _ 0 firstPaint_config)))
    as (Hu & _).
  exact Hu.
Qed.

Lemma lateRun_elapsed : elapsedTime lateRun 6000 = 2.5.
Proof.
  assert (5800 <> 0) as H0 by lra.
  assert (2.4 + (6000 - 5800) / 1000 * 0.5 = 2.5) as H1 by lra.
  destruct lateRun_fields as ((Ha & Hp & Hl & (t0 & Hs) & _ & Hv & _) & _).
  rewrite (elapsedTime_next lateRun 6000 t0 5800 Ha Hs Hl H0).
  rewrite Hp, Hv. exact H1.
Qed.

(** * Formatting *)

Lemma round_half_up_eval x n :
  IZR n <= x + 1 / 2 < IZR n + 1 -> round_half_up x = n.
Proof.
  intros [H1 H2]. unfold round_half_up. symmetry. apply Int_part_spec. lra.
Qed.

Lemma toFixed_eval x f n :
  0 <= x -> IZR n <= x * 10 ^ f + 1 / 2 < IZR n + 1 ->
  toFixed x f = point_at f (digits n).
Proof.
  intros Hx Hn. unfold toFixed.
  rewrite bool_decide_false by lra. by rewrite (round_half_up_eval _ n).
Qed.

Example toFixed_2_4 : toFixed (2.0 * (1 + 0.2)) 2 = "2.40"%string.
Proof. rewrite (toFixed_eval _ 2 240) by lra. reflexivity. Qed.

Example toFixed_3_0 : toFixed (2.0 * (1 + 0.5)) 2 = "3.00"%string.
Proof. rewrite (toFixed_eval _ 2 300) by lra. reflexivity. Qed.

Example toFixed_half_up : toFixed 0.005 2 = "0.01"%string.
Proof. rewrite (toFixed_eval _ 2 1) by lra. reflexivity. Qed.

Example toFixed_zero : toFixed 0 3 = "0.000"%string.
Proof. rewrite (toFixed_eval _ 3 0) by lra. reflexivity. Qed.

Lemma append_s_nonempty (a : string) : (a +:+ "s")%string <> EmptyString.
Proof. by destruct a. Qed.

(** * Completion *)

Lemma redraw_frozen x t :
  animationState x = idle -> isAnimationComplete x = true ->
  frozen (drawFrame (cleanup x) t) /\
  cycloidParameter (drawFrame (cleanup x) t) = cycloidParameter x.
Proof.
  intros Ha Hc.
  assert (animationState x <> running) as Hr by congruence.
  destruct (redraw_fields x t Hr) as (Ha' & Hc' & _ & _ & HE' & _ & Hf').
  split; [|done]. unfold frozen. rewrite Ha', Hc', Hf', HE', Ha, Hc.
  repeat split; try by destruct (finishedAt x).
  intros lc Hin. by apply (drawFrame_elapsedTimes (cleanup x) t lc).
Qed.

Lemma settle_frozen fuel now i old x E :
  frozen x -> cycloidParameter x = E ->
  frozen (settle fuel now i old x) /\
  cycloidParameter (settle fuel now i old x) = E.
Proof.
  intros Hx HE.
  apply (settle_ind (fun y => frozen y /\ cycloidParameter y = E)); [|done].
  intros y t [(Ha & Hc & _) HEy].
  rewrite useEffect_resting by (cbn; congruence).
  destruct (redraw_frozen y t Ha Hc) as [? ?]. split; congruence.
Qed.

Lemma displayMetric_frozen x lc :
  frozen x -> lc ∈ curves (cycloidParameter x) ->
  displayMetric x (fst lc) = Some (toFixed (time (snd lc)) 2 +:+ "s")%string.
Proof.
  intros (_ & Hc & _ & Ht) Hin. unfold displayMetric.
  rewrite Hc, (Ht lc Hin). by rewrite decide_False by apply append_s_nonempty.
Qed.

Lemma step_Frame_idle now s ts :
  frameRequested s = false -> step now s (AnimationFrame ts) = s.
Proof.
  intros Hf. unfold step, handle. rewrite Hf. by apply settle_unchanged.
Qed.

Lemma handle_keeps_complete ev s :
  ev <> ClickStart -> isAnimationComplete s = true ->
  isAnimationComplete (handle ev s) = true.
Proof.
  intros Hev Hc. destruct ev; try done; cbn [handle].
  destruct (frameRequested s); [|done].
  unfold drawFrame; cbn [isAnimationComplete setFrameRequested].
  rewrite Hc. by destruct (bool_decide _).
Qed.

Lemma step_keeps_complete now s ev :
  ev <> ClickStart -> isAnimationComplete s = true ->
  isAnimationComplete (step now s ev) = true.
Proof.
  intros Hev Hc. unfold step.
  apply (settle_ind (fun x => isAnimationComplete x = true)).
  - intros x t Hx. unfold useEffect.
    destruct (animationState (cleanup x)); try done;
      unfold drawFrame; cbn [isAnimationComplete cleanup setFrameRequested];
      rewrite Hx; by destruct (bool_decide _).
  - by apply handle_keeps_complete.
Qed.

Lemma step_Shape_frozen now x v :
  frozen x ->
  frozen (step now x (SlideShape v)) /\
  cycloidParameter (step now x (SlideShape v)) = v.
Proof.
  intros (Ha & Hc & Hf & Ht). unfold step, handle, rounds.
  destruct (decide (v = cycloidParameter x)) as [-> | Hne].
  - rewrite settle_unchanged by done. split; [|done]. by repeat split.
  - rewrite settle_changed by (apply deps_shape; cbn; congruence).
    rewrite useEffect_resting by (cbn; congruence).
    destruct (redraw_frozen (setCycloidParameter v x) (now 0%nat) Ha Hc)
      as [Hfr HE].
    by apply settle_frozen.
Qed.

Lemma finishing_frame_frozen now s ts :
  animationState s = running -> frameRequested s = true ->
  maxTime (cycloidParameter s) <= elapsedTime s ts ->
  frozen (step now s (AnimationFrame ts)) /\
  cycloidParameter (step now s (AnimationFrame ts)) = cycloidParameter s.
Proof.
  intros Hr Hf Hfin. unfold step, handle, rounds. rewrite Hf.
  destruct (drawFrame_finishing (setFrameRequested false s) ts Hfin)
    as (Ha1 & Hc1 & _ & _ & _ & HE1).
  set (s1 := drawFrame (setFrameRequested false s) ts) in *.
  rewrite settle_changed by (apply deps_phase; congruence).
  rewrite useEffect_resting
    by (change (animationState s1 <> running); congruence).
  destruct (redraw_frozen s1 (now 0%nat) Ha1 Hc1) as [Hfr HE].
  apply settle_frozen; [done|]. by rewrite HE, HE1.
Qed.

(** The redraw that follows the finishing frame ranks the curves at the
    last banked time, not at the finishing time. *)
Lemma finishing_frame_rankings now s ts :
  animationState s = running -> frameRequested s = true ->
  cycloidParameter s = 0.2 -> pausedElapsedTime s = 2.4 ->
  maxTime 0.2 <= elapsedTime s ts ->
  let s' := step now s (AnimationFrame ts) in
  rankings s' = lateOrder /\ prevRankings s' = definitionOrder.
Proof.
  intros Hr Hf HE Hp Hfin s'. subst s'. unfold step, handle, rounds. rewrite Hf.
  assert (maxTime (cycloidParameter (setFrameRequested false s))
          <= elapsedTime (setFrameRequested false s) ts) as Hfin'.
  { change (maxTime (cycloidParameter s) <= elapsedTime s ts). by rewrite HE. }
  destruct (drawFrame_finishing (setFrameRequested false s) ts Hfin')
    as (Ha1 & Hc1 & Hp1 & _ & _ & HE1).
  pose proof (drawFrame_rankings (setFrameRequested false s) ts) as Hk1.
  set (s1 := drawFrame (setFrameRequested false s) ts) in *.
  change (cycloidParameter (setFrameRequested false s))
    with (cycloidParameter s) in HE1, Hk1.
  change (pausedElapsedTime (setFrameRequested false s))
    with (pausedElapsedTime s) in Hp1.
  change (elapsedTime (setFrameRequested false s) ts)
    with (elapsedTime s ts) in Hk1.
  rewrite HE in HE1, Hk1. rewrite Hp in Hp1.
  rewrite newRankings_all_done in Hk1 by (done || lra).
  assert (animationState s1 <> running) as Hr1 by congruence.
  rewrite settle_changed by (apply deps_phase; congruence).
  rewrite useEffect_resting by done.
  apply (settle_ind (fun x =>
    (animationState x <> running /\ cycloidParameter x = 0.2 /\
     pausedElapsedTime x = 2.4) /\
    rankings x = lateOrder /\ prevRankings x = definitionOrder)).
  - intros x t ((Hrx & HEx & Hpx) & Hkx & Hqx).
    rewrite useEffect_resting by done.
    destruct (redraw_fields x t Hrx) as (_ & _ & Hp' & _ & HE' & Hk' & _).
    rewrite redraw_prevRankings by done.
    rewrite Hk', Hp', HE', HEx, Hpx, Hkx, Hqx.
    rewrite newRankings_line_last by lra.
    split; [split; [by apply redraw_resting | done] |].
    split; [done|]. by rewrite bool_decide_false by (by intros H; apply H).
  - destruct (redraw_fields s1 (now 0%nat) Hr1) as (_ & _ & Hp' & _ & HE' & Hk' & _).
    rewrite redraw_prevRankings by done.
    rewrite Hk', Hp', HE', HE1, Hp1, Hk1.
    rewrite newRankings_line_last by lra.
    split; [split; [by apply redraw_resting | done] |].
    split; [done|]. by rewrite bool_decide_true by discriminate.
Qed.

Lemma lateRun_finishes :
  maxTime (cycloidParameter lateRun) <= elapsedTime lateRun 6000.
Proof.
  destruct lateRun_fields as ((_ & _ & _ & _ & _ & _ & HE & _) & _).
  rewrite HE, maxTime_default, lateRun_elapsed. apply Rle_refl.
Qed.

Lemma finishedRun_frozen :
  frozen finishedRun /\ cycloidParameter finishedRun = 0.2.
Proof.
  destruct lateRun_fields as ((Ha & _ & _ & _ & Hf & _ & HE & _) & _).
  destruct (finishing_frame_frozen clock lateRun 6000 Ha Hf lateRun_finishes)
    as [Hfr HE'].
  split; [exact Hfr|]. unfold finishedRun. by rewrite HE'.
Qed.

Lemma finishedRun_rankings :
  rankings finishedRun = lateOrder /\ prevRankings finishedRun = definitionOrder.
Proof.
  destruct lateRun_fields as ((Ha & Hp & _ & _ & Hf & _ & HE & _) & _).
  pose proof lateRun_finishes as Hfin. rewrite HE in Hfin.
  exact (finishing_frame_rankings clock lateRun 6000 Ha Hf HE Hp Hfin).
Qed.

(** * Reset *)

Lemma useEffect_requestOnlyRunning x t :
  requestOnlyRunning (useEffect (cleanup x) t).
Proof.
  destruct (decide (animationState x = running)) as [Hr | Hr].
  - rewrite useEffect_running by done. by intros _.
  - rewrite useEffect_resting by done.
    destruct (redraw_fields x t Hr) as (_ & _ & _ & _ & _ & _ & Hf).
    intros H. congruence.
Qed.

Lemma handle_requestOnlyRunning ev s :
  requestOnlyRunning s -> deps s = deps (handle ev s) ->
  requestOnlyRunning (handle ev s).
Proof.
  intros Hs Hd.
  assert (animationState (handle ev s) = animationState s) as Ha
    by (unfold deps in Hd; congruence).
  destruct ev; cbn [handle] in *;
    try (intros H; rewrite Ha; apply Hs; exact H).
  destruct (frameRequested s) eqn:Hf; [|done].
  intros _. rewrite Ha. by apply Hs.
Qed.

Lemma step_requestOnlyRunning now s ev :
  requestOnlyRunning s -> requestOnlyRunning (step now s ev).
Proof.
  intros Hs. unfold step, rounds.
  destruct (decide (deps s = deps (handle ev s))) as [Hd | Hd].
  - rewrite settle_unchanged by done. by apply handle_requestOnlyRunning.
  - rewrite settle_changed by done.
    apply (settle_ind requestOnlyRunning).
    + intros x t _. apply useEffect_requestOnlyRunning.
    + apply useEffect_requestOnlyRunning.
Qed.

Lemma mount_requestOnlyRunning now : requestOnlyRunning (mount now).
Proof.
  destruct (mount_atRest now) as ((_ & _ & _ & _ & _ & Hf) & _).
  intros H. congruence.
Qed.





(** * Rank indicators *)

Example indexOf_found : indexOf definitionOrder "Parabola" = 2%Z.
Proof. reflexivity. Qed.

Example indexOf_absent : indexOf definitionOrder "Cycloid" = (-1)%Z.
Proof. reflexivity. Qed.

Lemma indexOf_lookup xs x i :
  NoDup xs -> xs !! i = Some x -> indexOf xs x = Z.of_nat i.
Proof.
  intros Hnd. revert i. induction Hnd as [|y xs Hy Hnd IH]; intros i Hi; [done|].
  destruct i as [|i]; cbn in Hi |- *.
  - injection Hi as ->. by rewrite decide_True.
  - rewrite decide_False.
    + rewrite (IH i Hi). destruct (Z.ltb_spec (Z.of_nat i) 0); lia.
    + intros ->. apply Hy. by eapply list_elem_of_lookup_2.
Qed.

(** * Orders in the sample runs *)

Lemma before_late_P_L :
  before lateOrder "Parabola"%string "Straight Line"%string.
Proof.
  by exists ["Brachistochrone"%string], ["Parametric Cycloid"%string], [].
Qed.

Lemma before_definition_L_P :
  before definitionOrder "Straight Line"%string "Parabola"%string.
Proof.
  by exists ["Brachistochrone"%string], [], ["Parametric Cycloid"%string].
Qed.

Lemma definitionOrder_NoDup : NoDup definitionOrder.
Proof. compute_done. Qed.

Lemma lateRun_next_rankings :
  rankings (drawFrame lateRun 6000) = definitionOrder.
Proof.
  destruct lateRun_fields as ((_ & _ & _ & _ & _ & _ & HE & _) & _).
  assert (-1 < 0.2) as H0 by lra.
  assert (maxTime 0.2 <= 2.5) as H1 by (rewrite maxTime_default; lra).
  rewrite drawFrame_rankings, HE, lateRun_elapsed.
  by apply newRankings_all_done.
Qed.

Lemma tie_at_finish :
  e_distance (progressEntry 2.5 ("Parabola"%string, Parabola))
  = e_distance (progressEntry 2.5 ("Straight Line"%string, Straight_Line)).
Proof.
  rewrite (progressEntry_done 0.2 2.5 _ ltac:(lra) (in_curves_P _))
    by (cbn; lra).
  rewrite (progressEntry_done 0.2 2.5 _ ltac:(lra) (in_curves_L _))
    by (cbn; lra).
  reflexivity.
Qed.

(** * Properties of the curve model *)

Lemma Straight_Line_square t : 0 <= t <= 1 -> in_unit_square (func Straight_Line t).
Proof. intros H. unfold in_unit_square; cbn. lra. Qed.

Lemma Parabola_square t : 0 <= t <= 1 -> in_unit_square (func Parabola t).
Proof. intros H. unfold in_unit_square; cbn. nra. Qed.




(** C9.  For every curve of the set (any shape parameter above [-1], the
    slider range [[0,1]] included) and elapsed times [0 <= e1 <= e2], the
    progress [min (elapsed / time) 1] is non-decreasing and lies in
    [[0,1]]. *)
Theorem progress_monotone E lc e1 e2 :
  -1 < E -> lc ∈ curves E -> 0 <= e1 <= e2 ->
  progress_of e1 (snd lc) <= progress_of e2 (snd lc) /\
  0 <= progress_of e1 (snd lc) <= 1 /\
  0 <= progress_of e2 (snd lc) <= 1.
Proof.
  intros HE Hin [H1 H2].
  assert (0 < time (snd lc)) as Hpos by (by apply (curves_time_pos E)).
  assert (0 < / time (snd lc)) as Hinv by (by apply Rinv_0_lt_compat).
  assert (0 <= e1 / time (snd lc)) as Hq1 by (apply Rmult_le_pos; lra).
  assert (e1 / time (snd lc) <= e2 / time (snd lc)) as Hq
    by (apply Rmult_le_compat_r; lra).
  unfold progress_of. split; [|split].
  - apply Rle_min_compat_r. exact Hq.
  - split; [apply Rmin_glb; lra | apply Rmin_r].
  - split; [apply Rmin_glb; lra | apply Rmin_r].
Qed.

Lemma progress_monotone_witness :
  progress_of 1 Straight_Line <= progress_of 2 Straight_Line.
Proof.
  apply (progress_monotone 0.2 ("Straight Line"%string, Straight_Line) 1 2);
    [lra | apply in_curves_L | lra].
Defined.

(** * Double precision: what survives rounding *)

Lemma SFmul_comm prec emax x y : SFmul prec emax x y = SFmul prec emax y x.
Proof.
  destruct x as [sx|sx| |sx mx ex], y as [sy|sy| |sy my ey]; cbn;
    rewrite ?(xorb_comm sx sy); try reflexivity.
  by rewrite Pos.mul_comm, Z.add_comm.
Qed.

(** The product of two doubles does not depend on their order. *)
Lemma Double_mul_comm (x y : float) : (x * y)%float = (y * x)%float.
Proof. apply FloatAxioms.Prim2SF_inj. rewrite !FloatAxioms.mul_spec. apply SFmul_comm. Qed.

Lemma SFeqb_refl x : x <> S754_nan -> SFeqb x x = true.
Proof.
  destruct x as [s|s| |s m e]; intros Hx; try done.
  - unfold SFeqb; cbn. by destruct s.
  - unfold SFeqb; cbn.
    rewrite Z.compare_refl, Pos.compare_cont_refl. by destruct s.
Qed.

Lemma is_nan_false x : PrimFloat.is_nan x = false -> Prim2SF x <> S754_nan.
Proof.
  unfold PrimFloat.is_nan. rewrite FloatAxioms.eqb_spec. intros H Hx.
  rewrite Hx in H. discriminate.
Qed.

Lemma is_finite_true p :
  PrimFloat.is_finite p = true ->
  (exists s, Prim2SF p = S754_zero s) \/
  (exists s m e, Prim2SF p = S754_finite s m e).
Proof.
  unfold PrimFloat.is_finite, PrimFloat.is_nan, PrimFloat.is_infinity.
  rewrite !FloatAxioms.eqb_spec, FloatAxioms.abs_spec.
  change (Prim2SF infinity) with (S754_infinity false).
  destruct (Prim2SF p) as [s|s| |s m e]; cbn; intros H.
  - left. by exists s.
  - by destruct s.
  - discriminate.
  - right. by exists s, m, e.
Qed.

(** Adding zero times a finite number changes no number. *)
Lemma add_zero_product y p :
  PrimFloat.is_nan y = false -> PrimFloat.is_finite p = true ->
  (y + 0 * p =? y)%float = true.
Proof.
  intros Hy Hp. apply is_nan_false in Hy. apply is_finite_true in Hp.
  rewrite FloatAxioms.eqb_spec, FloatAxioms.add_spec, FloatAxioms.mul_spec.
  change (Prim2SF 0) with (S754_zero false).
  assert (exists s, SF64mul (S754_zero false) (Prim2SF p) = S754_zero s)
    as [s ->].
  { destruct Hp as [[s ->] | (s & m & e & ->)]; cbn; eauto. }
  destruct (Prim2SF y) as [sy|sy| |sy my ey] eqn:Hsf; try done.
  - by destruct sy, s.
  - by destruct sy.
  - apply (SFeqb_refl (S754_finite sy my ey)). discriminate.
Qed.

(** C10, amended.  With the shape parameter at [0] the Parametric Cycloid
    entry of the curve set has the same total time of [2.0] seconds as the
    Brachistochrone entry, in exact arithmetic and as computed in double
    precision.  In exact arithmetic its position function is that of the
    Brachistochrone, pointwise.  As computed in double precision the
    ordinates are equal for every progress at which the engine's cosine
    and power return numbers; nothing is said of the computed abscissae,
    which the two entries evaluate in different orders. *)
Theorem Parametric_Cycloid_zero t m d :
  curve_of (curves 0) "Parametric Cycloid" = Some (Parametric_Cycloid 0) /\
  curve_of (curves 0) "Brachistochrone" = Some Brachistochrone /\
  func (Parametric_Cycloid 0) t = func Brachistochrone t /\
  time (Parametric_Cycloid 0) = time Brachistochrone /\
  time Brachistochrone = 2.0 /\
  Double.time (Double.Parametric_Cycloid m 0)
  = Double.time (Double.Brachistochrone m) /\
  Double.time (Double.Brachistochrone m) = 2%float /\
  (PrimFloat.is_nan (snd (Double.func (Double.Brachistochrone m) d)) = false ->
   PrimFloat.is_finite
     (Double.Math_pow m (Double.Math_sin m (Double.Math_PI * d)) 2) = true ->
   (snd (Double.func (Double.Parametric_Cycloid m 0) d)
    =? snd (Double.func (Double.Brachistochrone m) d))%float = true).
Proof.
  split; [reflexivity|]. split; [reflexivity|].
  split; [|split; [|split; [|split; [|split]]]].
  - pose proof PI_RGT_0. cbn.
    replace (t * PI) with (PI * t) by ring. f_equal; [field; lra | lra].
  - cbn. lra.
  - reflexivity.
  - reflexivity.
  - reflexivity.
  - cbn [Double.func Double.Brachistochrone Double.Parametric_Cycloid snd].
    rewrite (Double_mul_comm Double.Math_PI d). apply add_zero_product.
Qed.

Lemma Parametric_Cycloid_zero_witness :
  (snd (Double.func (Double.Parametric_Cycloid Double.sample_lib 0)
          Double.sample_t)
   =? snd (Double.func (Double.Brachistochrone Double.sample_lib)
             Double.sample_t))%float = true.
Proof.
  refine (proj2 (proj2 (proj2 (proj2 (proj2 (proj2 (proj2
    (Parametric_Cycloid_zero 0 Double.sample_lib Double.sample_t)))))))
    _ _); reflexivity.
Defined.

(** C10 as stated fails in the program's arithmetic.  At progress
    [0.0615] the Parametric Cycloid with shape parameter [0] computes the
    abscissa [0.00038191191747322106] and the Brachistochrone
    [0.0003819119174732203]; the two differ for every value of the sine
    within two units in the last place of the one [Math.sin] returns. *)
Lemma Parametric_Cycloid_zero_counterexample :
  fst (Double.func (Double.Parametric_Cycloid Double.sample_lib 0)
         Double.sample_t) = 0x1.9076b320c4c00p-12%float /\
  fst (Double.func (Double.Brachistochrone Double.sample_lib)
         Double.sample_t) = 0x1.9076b320c4bf2p-12%float /\
  (0x1.9076b320c4c00p-12 =? 0x1.9076b320c4bf2p-12)%float = false /\
  Forall (fun s =>
            (fst (Double.func
                    (Double.Parametric_Cycloid
                       (Double.tabulated s Double.sample_cos) 0)
                    Double.sample_t)
             =? fst (Double.func
                       (Double.Brachistochrone
                          (Double.tabulated s Double.sample_cos))
                       Double.sample_t))%float = false)
         (Double.nearby Double.sample_sin).
Proof.
  split; [reflexivity|]. split; [reflexivity|]. split; [reflexivity|].
  repeat constructor.
Qed.

(** C4.  The four curves follow the laws of the specification, the
    tunable curve takes [2.0 * (1 + E)] seconds, and in a frame with shape
    parameter [0] and elapsed time [2.0] the Brachistochrone has progress
    [1] and distance [0] while the straight line (total time [2.5]) has
    progress [0.8], position [(0.8, 0.8)] and distance [0.2 * sqrt 2],
    between [0.2828] and [0.2829]. *)
Theorem curves_follow_laws E t s ts :
  (func Brachistochrone t = law_fastest_descent t /\
   func Straight_Line t = law_direct_line t /\
   func Parabola t = law_quadratic t /\
   func (Parametric_Cycloid E) t = law_tunable E t /\
   time (Parametric_Cycloid E) = law_total_time 2.0 E) /\
  (cycloidParameter s = 0 -> elapsedTime s ts = 2.0 ->
   progress_of 2.0 Brachistochrone = 1 /\
   distanceToEnd (drawFrame s ts) !! "Brachistochrone" = Some 0 /\
   time Straight_Line = 2.5 /\
   progress_of 2.0 Straight_Line = 0.8 /\
   func Straight_Line 0.8 = (0.8, 0.8) /\
   distanceToEnd (drawFrame s ts) !! "Straight Line" = Some (sqrt 2 * 0.2) /\
   0.2828 < sqrt 2 * 0.2 < 0.2829).
Proof.
  split.
  - repeat split.
    + unfold law_fastest_descent. cbn. by replace (t * PI) with (PI * t) by ring.
    + cbn. unfold law_tunable, Rsqr. f_equal. f_equal. ring.
  - intros HE He.
    pose proof (drawFrame_distanceToEnd s ts _ (in_curves_B _)) as HB.
    pose proof (drawFrame_distanceToEnd s ts _ (in_curves_L _)) as HL.
    cbn [fst] in HB, HL. rewrite He in HB, HL.
    rewrite (progressEntry_done (cycloidParameter s)) in HB;
      [| rewrite HE; lra | apply in_curves_B | cbn; lra].
    rewrite progressEntry_line in HL by lra. cbn [e_distance] in HB, HL.
    replace (1 - 2.0 / 2.5) with 0.2 in HL by lra.
    pose proof sqrt2_bounds.
    repeat split; try done; try lra.
    + apply progress_of_done; cbn; lra.
    + rewrite progress_of_running by (cbn; lra). cbn. lra.
Qed.

Lemma curves_follow_laws_witness :
  animationSpeed scenarioTwo = 1 /\
  elapsedTime scenarioTwo 3000 = 2.0 /\
  distanceToEnd (drawFrame scenarioTwo 3000) !! "Straight Line"
  = Some (sqrt 2 * 0.2).
Proof.
  assert (1000 <> 0) as H0 by lra.
  assert (0 + (3000 - 1000) / 1000 * 1 = 2.0) as H1 by lra.
  destruct scenarioTwo_fields as (Ha & Hp & Hl & (t0 & Hs) & _ & Hv & HE & _).
  assert (elapsedTime scenarioTwo 3000 = 2.0) as He.
  { rewrite (elapsedTime_next scenarioTwo 3000 t0 1000 Ha Hs Hl H0).
    rewrite Hp, Hv. exact H1. }
  split; [exact Hv|]. split; [exact He|].
  destruct (curves_follow_laws 0 0 scenarioTwo 3000) as (_ & Hsc).
  destruct (Hsc HE He) as (_ & _ & _ & _ & _ & Hd & _). exact Hd.
Defined.

(** * Properties of the simulation clock *)

(** C3.  From a running state whose banked time is below the longest total
    time: [pause()], any redraws, [resume()], a first frame at any non-zero
    timestamp [ts] and a second frame [d] milliseconds later leave the
    banked time untouched up to the first frame and then add exactly
    [d / 1000 * speed]; [resume()] clears the last frame timestamp. *)
Theorem pause_resume_continuous now1 now2 now3 now4 s ts d :
  animationState s = running ->
  pausedElapsedTime s < maxTime (cycloidParameter s) ->
  ts <> 0 ->
  let s1 := step now1 s ClickPause in
  let s2 := step now2 s1 ClickResume in
  let s3 := step now3 s2 (AnimationFrame ts) in
  let s4 := step now4 s3 (AnimationFrame (ts + d)) in
  animationState s1 = paused /\
  pausedElapsedTime s1 = pausedElapsedTime s /\
  animationState s2 = running /\
  lastTimestampRef s2 = None /\
  pausedElapsedTime s2 = pausedElapsedTime s /\
  pausedElapsedTime s3 = pausedElapsedTime s /\
  elapsedTime s3 (ts + d)
    = pausedElapsedTime s + d / 1000 * animationSpeed s /\
  (pausedElapsedTime s + d / 1000 * animationSpeed s
     < maxTime (cycloidParameter s) ->
   pausedElapsedTime s4 = pausedElapsedTime s + d / 1000 * animationSpeed s).
Proof.
  intros Hr Hlt Hts s1 s2 s3 s4.
  destruct (step_Pause now1 s Hr Hlt) as (Ha1 & Hp1 & Hv1 & HE1 & _).
  fold s1 in Ha1, Hp1, Hv1, HE1.
  assert (s2 = setFrameRequested true (handleResumeAnimation s1)) as Hs2.
  { apply step_Resume. congruence. }
  assert (animationState s2 = running) as Ha2 by (by rewrite Hs2).
  assert (lastTimestampRef s2 = None) as Hl2 by (by rewrite Hs2).
  assert (pausedElapsedTime s2 = pausedElapsedTime s) as Hp2 by (by rewrite Hs2).
  assert (frameRequested s2 = true) as Hf2 by (by rewrite Hs2).
  assert (animationSpeed s2 = animationSpeed s) as Hv2 by (by rewrite Hs2).
  assert (cycloidParameter s2 = cycloidParameter s) as HE2 by (by rewrite Hs2).
  assert (elapsedTime s2 ts = pausedElapsedTime s) as He2.
  { rewrite elapsedTime_first; auto. }
  destruct (step_Frame_running now3 s2 ts Ha2 Hf2) as
    (Ha3 & Hp3 & Hl3 & (t0 & Hs3) & Hf3 & Hv3 & HE3 & _).
  { rewrite He2, HE2. exact Hlt. }
  fold s3 in Ha3, Hp3, Hl3, Hs3, Hf3, Hv3, HE3.
  assert (elapsedTime s3 (ts + d)
          = pausedElapsedTime s + d / 1000 * animationSpeed s) as He3.
  { rewrite (elapsedTime_next s3 _ t0 ts) by done.
    rewrite Hp3, He2, Hv3, Hv2. f_equal. f_equal. lra. }
  repeat split; try done.
  - congruence.
  - intros Hlt'.
    destruct (step_Frame_running now4 s3 (ts + d) Ha3 Hf3) as (_ & Hp4 & _).
    { rewrite He3, HE3, HE2. exact Hlt'. }
    fold s4 in Hp4. congruence.
Qed.

Lemma pause_resume_continuous_witness :
  pausedElapsedTime oneSecondIn = 1 /\
  animationSpeed oneSecondIn = 1 /\
  pausedElapsedTime
    (step clock
       (step clock (step clock (step clock oneSecondIn ClickPause) ClickResume)
          (AnimationFrame 60000))
       (AnimationFrame (60000 + 500))) = 1.5.
Proof.
  assert (60000 <> 0) as H0 by lra.
  assert (1 < 2.5) as H1 by lra.
  assert (1 + 500 / 1000 * 1 < 2.5) as H2 by lra.
  assert (1 + 500 / 1000 * 1 = 1.5) as H3 by lra.
  destruct oneSecondIn_fields as (Ha & Hp & _ & _ & _ & Hv & HE & _).
  assert (pausedElapsedTime oneSecondIn
          < maxTime (cycloidParameter oneSecondIn)) as Hlt.
  { rewrite Hp, HE, maxTime_default. exact H1. }
  destruct (pause_resume_continuous clock clock clock clock oneSecondIn
              60000 500 Ha Hlt H0) as (_ & _ & _ & _ & _ & _ & _ & H).
  rewrite Hp, Hv, HE, maxTime_default in H.
  split; [exact Hp|]. split; [exact Hv|].
  rewrite (H H2). exact H3.
Defined.

(** C7, amended.  In a running frame whose last frame timestamp is
    recorded (and not zero) the elapsed time is
    [banked + (timestamp - last) / 1000 * speed], with no clamping: it is
    banked as it is unless the run finishes, it does not decrease when the
    timestamp is not earlier than the last one, and it does decrease when
    the timestamp is earlier. *)
Theorem frame_delta_unclamped s ts t0 last :
  animationState s = running ->
  startTimeRef s = Some t0 -> lastTimestampRef s = Some last -> last <> 0 ->
  elapsedTime s ts
    = pausedElapsedTime s + (ts - last) / 1000 * animationSpeed s /\
  (elapsedTime s ts < maxTime (cycloidParameter s) ->
   pausedElapsedTime (drawFrame s ts) = elapsedTime s ts) /\
  (0 <= animationSpeed s -> last <= ts ->
   pausedElapsedTime s <= elapsedTime s ts) /\
  (0 < animationSpeed s -> ts < last ->
   elapsedTime s ts < pausedElapsedTime s).
Proof.
  intros Hr Hs Hl Hz.
  rewrite (elapsedTime_next s ts t0 last) by done.
  split; [done|]. split; [|split].
  - intros Hlt. rewrite <- (elapsedTime_next s ts t0 last) by done.
    apply drawFrame_banks; [done|].
    by rewrite (elapsedTime_next s ts t0 last).
  - intros Hv Hle.
    assert (0 <= (ts - last) / 1000 * animationSpeed s); [|lra].
    apply Rmult_le_pos; lra.
  - intros Hv Hlt.
    assert (0 < (last - ts) / 1000 * animationSpeed s); [|lra].
    apply Rmult_lt_0_compat; lra.
Qed.

Lemma frame_delta_unclamped_witness :
  elapsedTime lateRun 5900 = 2.45 /\
  pausedElapsedTime lateRun <= elapsedTime lateRun 5900.
Proof.
  assert (5800 <> 0) as H0 by lra.
  assert (2.4 + (5900 - 5800) / 1000 * 0.5 = 2.45) as H1 by lra.
  assert (0 <= 0.5) as H2 by lra.
  assert (5800 <= 5900) as H3 by lra.
  destruct lateRun_fields as ((Ha & Hp & Hl & (t0 & Hs) & _ & Hv & _) & _).
  destruct (frame_delta_unclamped lateRun 5900 t0 5800 Ha Hs Hl H0)
    as (He & _ & Hle & _).
  split.
  - rewrite He, Hp, Hv. exact H1.
  - apply Hle; [rewrite Hv; exact H2 | exact H3].
Defined.

(** C7 as stated fails: a frame stamped [5000] after a frame stamped
    [5800] lowers the banked time from [2.4] to [2.0] seconds. *)
Lemma frame_delta_clamp_counterexample :
  animationState lateRun = running /\
  lastTimestampRef lateRun = Some 5800 /\
  5000 < 5800 /\
  pausedElapsedTime lateRun = 2.4 /\
  elapsedTime lateRun 5000 = 2.0 /\
  pausedElapsedTime (drawFrame lateRun 5000) = 2.0 /\
  pausedElapsedTime (drawFrame lateRun 5000) < pausedElapsedTime lateRun.
Proof.
  assert (5800 <> 0) as H0 by lra.
  assert (2.4 + (5000 - 5800) / 1000 * 0.5 = 2.0) as H1 by lra.
  assert (2.0 < 2.5) as H2 by lra.
  assert (2.0 < 2.4) as H3 by lra.
  assert (5000 < 5800) as H4 by lra.
  destruct lateRun_fields as ((Ha & Hp & Hl & (t0 & Hs) & _ & Hv & HE & _) & _).
  assert (elapsedTime lateRun 5000 = 2.0) as He.
  { rewrite (elapsedTime_next lateRun 5000 t0 5800 Ha Hs Hl H0).
    rewrite Hp, Hv. exact H1. }
  assert (pausedElapsedTime (drawFrame lateRun 5000) = 2.0) as Hb.
  { rewrite <- He. apply drawFrame_banks; [exact Ha|].
    rewrite He, HE, maxTime_default. exact H2. }
  split; [exact Ha|]. split; [exact Hl|]. split; [exact H4|].
  split; [exact Hp|]. split; [exact He|]. split; [exact Hb|].
  rewrite Hb, Hp. exact H3.
Qed.

(** * Properties of the ranking engine *)

(** C2, amended.  In every frame the published ranking lists the labels of
    [progressData], which is a permutation of the curve entries sorted by
    ascending distance; two curves with equal distance stand in the order
    of the curve set (Brachistochrone, Straight Line, Parabola, Parametric
    Cycloid), so two curves that are tied in two consecutive frames stand
    in the same order in both. *)
Theorem rankings_sorted_stable s ts :
  let E := cycloidParameter s in
  let e := elapsedTime s ts in
  rankings (drawFrame s ts) = e_label <$> progressData E e /\
  progressData E e ≡ₚ progressEntry e <$> curves E /\
  StronglySorted (ascending e_distance) (progressData E e) /\
  (forall ca cb,
     before (curves E) ca cb ->
     e_distance (progressEntry e ca) = e_distance (progressEntry e cb) ->
     before (rankings (drawFrame s ts)) (fst ca) (fst cb)) /\
  (forall ts' ca cb,
     let e' := elapsedTime (drawFrame s ts) ts' in
     ca ∈ curves E -> cb ∈ curves E -> ca <> cb ->
     e_distance (progressEntry e ca) = e_distance (progressEntry e cb) ->
     e_distance (progressEntry e' ca) = e_distance (progressEntry e' cb) ->
     before (rankings (drawFrame s ts)) (fst ca) (fst cb) <->
     before (rankings (drawFrame (drawFrame s ts) ts')) (fst ca) (fst cb)).
Proof.
  intros E e. split; [apply drawFrame_rankings|].
  split; [apply progressData_Permutation|].
  split; [apply progressData_sorted|]. split.
  - intros ca cb Hb Heq. rewrite drawFrame_rankings. by apply newRankings_stable.
  - intros ts' ca cb e' Ha Hb Hne Heq Heq'. rewrite !drawFrame_rankings.
    change (cycloidParameter (drawFrame s ts)) with E. fold e e'.
    destruct (before_total (curves E) ca cb Ha Hb Hne) as [Hab | Hba].
    + split; intros _; by apply newRankings_stable.
    + pose proof (newRankings_stable E e cb ca Hba (eq_sym Heq)) as H1.
      pose proof (newRankings_stable E e' cb ca Hba (eq_sym Heq')) as H2.
      split; intros H.
      * destruct (before_NoDup_asym _ _ _ (newRankings_NoDup E e) H1 H).
      * destruct (before_NoDup_asym _ _ _ (newRankings_NoDup E e') H2 H).
Qed.

Lemma rankings_sorted_stable_witness :
  before (rankings (drawFrame lateRun 6000))
    "Straight Line"%string "Parabola"%string.
Proof.
  destruct (rankings_sorted_stable lateRun 6000) as (_ & _ & _ & Hst & _).
  apply (Hst ("Straight Line"%string, Straight_Line) ("Parabola"%string, Parabola)).
  - exists [("Brachistochrone"%string, Brachistochrone)], [],
      [("Parametric Cycloid"%string, Parametric_Cycloid (cycloidParameter lateRun))].
    reflexivity.
  - rewrite lateRun_elapsed. symmetry. exact tie_at_finish.
Defined.

(** C2 as stated fails: in the frame that finishes the run the Parabola
    and the Straight Line are tied at distance [0]; the ranking published
    by the frame before has the Parabola first, the new one has the
    Straight Line first. *)
Lemma rankings_tie_counterexample :
  rankings lateRun = lateOrder /\
  elapsedTime lateRun 6000 = 2.5 /\
  e_distance (progressEntry 2.5 ("Parabola"%string, Parabola))
  = e_distance (progressEntry 2.5 ("Straight Line"%string, Straight_Line)) /\
  rankings (drawFrame lateRun 6000) = definitionOrder /\
  before (rankings lateRun) "Parabola"%string "Straight Line"%string /\
  ~ before (rankings (drawFrame lateRun 6000))
      "Parabola"%string "Straight Line"%string.
Proof.
  destruct lateRun_fields as (_ & Hk & _).
  split; [exact Hk|]. split; [exact lateRun_elapsed|].
  split; [exact tie_at_finish|]. split; [exact lateRun_next_rankings|].
  split.
  - rewrite Hk. exact before_late_P_L.
  - rewrite lateRun_next_rankings.
    apply before_NoDup_asym; [exact definitionOrder_NoDup|].
    exact before_definition_L_P.
Qed.

(** * Properties of completion, indicators and reset *)

(** C5, amended.  When a running frame computes an elapsed time at or
    above the longest total time, the component comes to rest in [idle]
    with the completion flag set and no frame requested; the redraw caused
    by the completion stores, for every label, its curve's total time
    printed with two decimals and an [s], and the display metric shows that
    string instead of the live distance.  Further frame callbacks change
    nothing, the flag stays set under every event but [start()] (a first
    paint is [idle] with the flag clear), and every redraw while the flag
    is set stores the times again from the curve set of that moment, so a
    later change of the shape parameter replaces the stored value. *)
Theorem completion_freezes_times now s ts :
  animationState s = running -> frameRequested s = true ->
  maxTime (cycloidParameter s) <= elapsedTime s ts ->
  let s' := step now s (AnimationFrame ts) in
  animationState s' = idle /\
  isAnimationComplete s' = true /\
  frameRequested s' = false /\
  cycloidParameter s' = cycloidParameter s /\
  (forall lc, lc ∈ curves (cycloidParameter s) ->
     elapsedTimes s' !! fst lc = Some (toFixed (time (snd lc)) 2 +:+ "s")%string /\
     displayMetric s' (fst lc) = Some (toFixed (time (snd lc)) 2 +:+ "s")%string /\
     (isAnimationComplete s = false ->
      displayMetric s (fst lc)
      = (fun d => toFixed d 3) <$> (distanceToEnd s !! fst lc))) /\
  (forall now' ts', step now' s' (AnimationFrame ts') = s') /\
  (forall now' ev,
     ev <> ClickStart -> isAnimationComplete (step now' s' ev) = true) /\
  (forall now' v lc, lc ∈ curves v ->
     elapsedTimes (step now' s' (SlideShape v)) !! fst lc
     = Some (toFixed (time (snd lc)) 2 +:+ "s")%string) /\
  (forall now', animationState (mount now') = idle /\
                isAnimationComplete (mount now') = false).
Proof.
  intros Hr Hf Hfin s'.
  destruct (finishing_frame_frozen now s ts Hr Hf Hfin) as [Hfr HE].
  fold s' in Hfr, HE.
  pose proof Hfr as (Ha & Hc & Hq & Ht).
  split; [done|]. split; [done|]. split; [done|]. split; [done|].
  split; [|split; [|split; [|split]]].
  - intros lc Hin. rewrite <- HE in Hin. split; [by apply Ht|].
    split; [by apply displayMetric_frozen|].
    intros Hlive. unfold displayMetric. by rewrite Hlive.
  - intros now' ts'. by apply step_Frame_idle.
  - intros now' ev Hev. by apply step_keeps_complete.
  - intros now' v lc Hin.
    destruct (step_Shape_frozen now' s' v Hfr) as [(_ & _ & _ & Ht') HE'].
    apply Ht'. by rewrite HE'.
  - intros now'.
    destruct (mount_atRest now') as ((Ha' & _ & _ & _ & Hc' & _) & _).
    by split.
Qed.

Lemma completion_freezes_times_witness :
  isAnimationComplete (step clock lateRun (AnimationFrame 6000)) = true /\
  elapsedTimes (step clock lateRun (AnimationFrame 6000)) !! "Parametric Cycloid"
  = Some "2.40s"%string.
Proof.
  destruct lateRun_fields as ((Ha & _ & _ & _ & Hf & _ & HE & _) & _).
  destruct (completion_freezes_times clock lateRun 6000 Ha Hf lateRun_finishes)
    as (_ & Hc & _ & _ & Ht & _).
  split; [exact Hc|].
  destruct (Ht ("Parametric Cycloid"%string,
                Parametric_Cycloid (cycloidParameter lateRun))
               (in_curves_PC _)) as (Hpc & _).
  rewrite HE in Hpc. cbn [fst snd time Parametric_Cycloid] in Hpc.
  rewrite toFixed_2_4 in Hpc. exact Hpc.
Defined.

(** C5 as stated fails: after the run has finished with the default shape
    parameter the Parametric Cycloid shows [2.40s]; moving the shape
    slider to [0.5] replaces it by [3.00s]. *)
Lemma frozen_time_counterexample :
  isAnimationComplete finishedRun = true /\
  elapsedTimes finishedRun !! "Parametric Cycloid" = Some "2.40s"%string /\
  elapsedTimes (step clock finishedRun (SlideShape 0.5)) !! "Parametric Cycloid"
  = Some "3.00s"%string.
Proof.
  destruct finishedRun_frozen as [Hfr HE].
  pose proof Hfr as (_ & Hc & _ & Ht).
  split; [exact Hc|]. split.
  - rewrite HE in Ht.
    pose proof (Ht _ (in_curves_PC 0.2)) as Hpc.
    cbn [fst snd time Parametric_Cycloid] in Hpc.
    rewrite toFixed_2_4 in Hpc. exact Hpc.
  - destruct (step_Shape_frozen clock finishedRun 0.5 Hfr)
      as [(_ & _ & _ & Ht') HE'].
    rewrite HE' in Ht'. pose proof (Ht' _ (in_curves_PC 0.5)) as Hpc.
    cbn [fst snd time Parametric_Cycloid] in Hpc.
    rewrite toFixed_3_0 in Hpc. exact Hpc.
Qed.

(** C6, amended.  For the label in row [i] of a duplicate-free ranking,
    [rankings.indexOf(label)] is [i]; once the run is complete no indicator
    is shown; while it is not complete and the label occurs in the previous
    rankings, a positive rank delta shows the up indicator, a negative one
    the down indicator and a zero delta none. *)
Theorem rank_indicator s label i :
  rankings s !! i = Some label -> NoDup (rankings s) ->
  indexOf (rankings s) label = Z.of_nat i /\
  (isAnimationComplete s = true -> rankIndicator s label i = NoIndicator) /\
  (isAnimationComplete s = false -> label ∈ prevRankings s ->
   ((0 < rankDelta s label)%Z -> rankIndicator s label i = Up) /\
   ((rankDelta s label < 0)%Z -> rankIndicator s label i = Down) /\
   (rankDelta s label = 0%Z -> rankIndicator s label i = NoIndicator)).
Proof.
  intros Hi Hnd. pose proof (indexOf_lookup _ _ _ Hnd Hi) as Hidx.
  split; [done|]. unfold rankIndicator, rankDelta. rewrite Hidx. split.
  - by intros ->.
  - intros -> _. cbn [negb andb].
    destruct (Z.eqb_spec (indexOf (prevRankings s) label) (Z.of_nat i));
      destruct (Z.gtb_spec (indexOf (prevRankings s) label) (Z.of_nat i));
      cbn [negb]; repeat split; intros; (done || lia).
Qed.

Lemma rank_indicator_witness :
  rankIndicator lateRun "Parabola" 1 = Up /\
  rankIndicator lateRun "Straight Line" 3 = Down /\
  rankIndicator lateRun "Brachistochrone" 0 = NoIndicator.
Proof.
  destruct lateRun_fields as ((_ & _ & _ & _ & _ & _ & _ & Hc) & Hk & Hq).
  assert (NoDup (rankings lateRun)) as Hnd by (rewrite Hk; compute_done).
  assert (rankings lateRun !! 1%nat = Some "Parabola"%string) as HP
    by (rewrite Hk; reflexivity).
  assert (rankings lateRun !! 3%nat = Some "Straight Line"%string) as HL
    by (rewrite Hk; reflexivity).
  assert (rankings lateRun !! 0%nat = Some "Brachistochrone"%string) as HB
    by (rewrite Hk; reflexivity).
  destruct (rank_indicator lateRun "Parabola" 1 HP Hnd) as (_ & _ & HP').
  destruct (rank_indicator lateRun "Straight Line" 3 HL Hnd) as (_ & _ & HL').
  destruct (rank_indicator lateRun "Brachistochrone" 0 HB Hnd) as (_ & _ & HB').
  split; [|split].
  - apply HP'; [exact Hc | rewrite Hq; compute_done |].
    unfold rankDelta. rewrite Hk, Hq. reflexivity.
  - apply HL'; [exact Hc | rewrite Hq; compute_done |].
    unfold rankDelta. rewrite Hk, Hq. reflexivity.
  - apply HB'; [exact Hc | rewrite Hq; compute_done |].
    unfold rankDelta. rewrite Hk, Hq. reflexivity.
Defined.

(** C6 as stated fails twice: after a finished run the Parabola has rank
    delta [1] and no indicator; on the first paint the previous rankings
    are empty and the Brachistochrone row shows the down indicator. *)
Lemma rank_indicator_counterexample :
  (isAnimationComplete finishedRun = true /\
   rankings finishedRun !! 1%nat = Some "Parabola"%string /\
   rankDelta finishedRun "Parabola" = 1%Z /\
   rankIndicator finishedRun "Parabola" 1 = NoIndicator) /\
  (isAnimationComplete firstPaint = false /\
   rankings firstPaint !! 0%nat = Some "Brachistochrone"%string /\
   ("Brachistochrone"%string ∉ prevRankings firstPaint) /\
   rankIndicator firstPaint "Brachistochrone" 0 = Down).
Proof.
  split.
  - destruct finishedRun_frozen as [(_ & Hc & _) _].
    destruct finishedRun_rankings as [Hk Hq].
    split; [exact Hc|]. split; [rewrite Hk; reflexivity|].
    split; [unfold rankDelta; rewrite Hk, Hq; reflexivity|].
    unfold rankIndicator. rewrite Hc. reflexivity.
  - destruct (mount_atRest clock) as ((_ & _ & _ & _ & Hc & _) & Hk & Hq).
    fold firstPaint in Hc, Hk, Hq.
    split; [exact Hc|]. split; [rewrite Hk; reflexivity|].
    split; [rewrite Hq; apply not_elem_of_nil|].
    unfold rankIndicator. rewrite Hc, Hq. reflexivity.
Qed.




(** * Further properties of the ranking engine *)

(** X1.  Whatever the state and the timestamp, the ranking a frame
    publishes lists each of the four labels exactly once. *)
Theorem frame_rankings_permutation s ts :
  rankings (drawFrame s ts) ≡ₚ definitionOrder /\
  NoDup (rankings (drawFrame s ts)) /\
  length (rankings (drawFrame s ts)) = 4%nat.
Proof.
  rewrite drawFrame_rankings.
  assert (newRankings (cycloidParameter s) (elapsedTime s ts)
          ≡ₚ definitionOrder) as Hp.
  { unfold newRankings. by rewrite progressData_labels, curves_labels. }
  split; [exact Hp|]. split; [apply newRankings_NoDup|]. by rewrite Hp.
Qed.

Lemma sum_squares_zero a b : a ^ 2 + b ^ 2 = 0 -> a = 0 /\ b = 0.
Proof.
  intros H. pose proof (pow2_ge_0 a). pose proof (pow2_ge_0 b).
  split; apply Rsqr_0_uniq; unfold Rsqr; nra.
Qed.

(** X2.  The distance to the goal is never negative, and it is zero at the
    goal [(1,1)] and nowhere else. *)
Theorem distance_zero_iff_goal p :
  0 <= distance_of p /\ (distance_of p = 0 <-> p = (1, 1)).
Proof.
  split; [apply distance_of_nonneg|]. split.
  - unfold distance_of. intros H.
    apply sqrt_eq_0 in H.
    + apply sum_squares_zero in H as [Hx Hy].
      destruct p as [x y]; cbn [fst snd] in *. f_equal; lra.
    + pose proof (pow2_ge_0 (1 - fst p)). pose proof (pow2_ge_0 (1 - snd p)).
      lra.
  - intros ->. apply distance_of_end.
Qed.

Lemma time_le_maxTime E lc : lc ∈ curves E -> time (snd lc) <= maxTime E.
Proof.
  intros Hin. rewrite maxTime_eq.
  pose proof (Rmax_l 2.5 (2.0 * (1 + E))).
  pose proof (Rmax_r 2.5 (2.0 * (1 + E))).
  apply curves_cases in Hin as [-> | [-> | [-> | ->]]]; cbn; lra.
Qed.

(** X3.  A frame whose elapsed time has reached the longest total time
    (shape parameter above [-1]) finds every curve at progress [1], at the
    goal and at distance [0]; it publishes the curves in the order of the
    curve set and ends the run. *)
Theorem all_at_goal_when_finished s ts lc :
  -1 < cycloidParameter s ->
  maxTime (cycloidParameter s) <= elapsedTime s ts ->
  lc ∈ curves (cycloidParameter s) ->
  progress_of (elapsedTime s ts) (snd lc) = 1 /\
  func (snd lc) (progress_of (elapsedTime s ts) (snd lc)) = (1, 1) /\
  distanceToEnd (drawFrame s ts) !! fst lc = Some 0 /\
  rankings (drawFrame s ts) = definitionOrder /\
  animationState (drawFrame s ts) = idle /\
  isAnimationComplete (drawFrame s ts) = true.
Proof.
  intros HE Hfin Hin.
  pose proof (time_le_maxTime _ _ Hin) as Hle.
  pose proof (curves_time_pos _ _ HE Hin) as Hpos.
  assert (progress_of (elapsedTime s ts) (snd lc) = 1) as Hp
    by (apply progress_of_done; lra).
  destruct (curves_ends _ _ Hin) as [_ H1].
  destruct (drawFrame_finishing s ts Hfin) as (Ha & Hc & _).
  split; [exact Hp|]. split; [by rewrite Hp|]. split; [|split; [|by split]].
  - rewrite (drawFrame_distanceToEnd s ts lc Hin).
    rewrite (progressEntry_done (cycloidParameter s)) by (done || lra). done.
  - rewrite drawFrame_rankings. by apply newRankings_all_done.
Qed.

Lemma all_at_goal_when_finished_witness :
  distanceToEnd (drawFrame lateRun 6000) !! "Straight Line" = Some 0 /\
  rankings (drawFrame lateRun 6000) = definitionOrder.
Proof.
  assert (-1 < 0.2) as H0 by lra.
  destruct lateRun_fields as ((_ & _ & _ & _ & _ & _ & HE & _) & _).
  assert (-1 < cycloidParameter lateRun) as HE' by (rewrite HE; exact H0).
  destruct (all_at_goal_when_finished lateRun 6000
              ("Straight Line"%string, Straight_Line) HE' lateRun_finishes
              (in_curves_L _)) as (_ & _ & Hd & Hk & _).
  split; [exact Hd | exact Hk].
Defined.

(** X4.  A frame at elapsed time [0] finds every curve at distance
    [sqrt 2], whatever the shape parameter, and publishes the curves in
    the order of the curve set. *)
Theorem all_tied_at_start s ts lc :
  elapsedTime s ts = 0 -> lc ∈ curves (cycloidParameter s) ->
  distanceToEnd (drawFrame s ts) !! fst lc = Some (sqrt 2) /\
  rankings (drawFrame s ts) = definitionOrder.
Proof.
  intros He Hin. split.
  - rewrite (drawFrame_distanceToEnd s ts lc Hin), He.
    by rewrite (progressEntry_start _ lc Hin).
  - rewrite drawFrame_rankings, He. apply newRankings_start.
Qed.

Lemma all_tied_at_start_witness :
  distanceToEnd (drawFrame firstPaint 9000) !! "Parabola" = Some (sqrt 2).
Proof.
  destruct (mount_atRest clock) as ((Ha & Hp & _) & _).
  fold firstPaint in Ha, Hp.
  assert (elapsedTime firstPaint 9000 = 0) as He.
  { rewrite elapsedTime_resting; [exact Hp | rewrite Ha; discriminate]. }
  destruct (all_tied_at_start firstPaint 9000 ("Parabola"%string, Parabola)
              He (in_curves_P _)) as [Hd _].
  exact Hd.
Defined.

Lemma sort_insert_least {A} (cmp : A -> A -> R) x l :
  Forall (fun y => 0 <= cmp y x) l -> sort_insert cmp x l = x :: l.
Proof.
  intros Hl. destruct l as [|y l]; [done|].
  apply Forall_cons in Hl as [Hy _]. by apply sort_insert_front.
Qed.

(** The entries behind the Brachistochrone in [progressData], in whatever
    order: none has a negative distance. *)
Lemma rest_distances E e :
  Forall (fun y => 0 <= e_distance y)
    (sort_insert byDistance
       (progressEntry e ("Straight Line"%string, Straight_Line))
       (sort_insert byDistance
          (progressEntry e ("Parabola"%string, Parabola))
          [progressEntry e
             ("Parametric Cycloid"%string, Parametric_Cycloid E)])).
Proof.
  pose proof (sort_insert_Permutation e_distance) as Hperm.
  unfold byKey in Hperm. unfold byDistance.
  rewrite Hperm. apply Forall_cons. split; [apply distance_of_nonneg|].
  rewrite Hperm. repeat (apply Forall_cons; split; [apply distance_of_nonneg|]).
  apply Forall_nil_2.
Qed.

(** X5.  For a shape parameter of at least [0] no curve has a shorter
    total time than the Brachistochrone, and a frame whose elapsed time
    has reached that time ranks the Brachistochrone first (ties
    included). *)
Theorem Brachistochrone_leads s ts lc :
  0 <= cycloidParameter s -> lc ∈ curves (cycloidParameter s) ->
  time Brachistochrone <= time (snd lc) /\
  (time Brachistochrone <= elapsedTime s ts ->
   head (rankings (drawFrame s ts)) = Some "Brachistochrone"%string).
Proof.
  intros HE Hin. split.
  - apply curves_cases in Hin as [-> | [-> | [-> | ->]]]; cbn; lra.
  - intros Hle. rewrite drawFrame_rankings. unfold newRankings.
    rewrite progressData_unfold.
    rewrite (progressEntry_done (cycloidParameter s) _ _ ltac:(lra)
               (in_curves_B _)) by done.
    rewrite sort_insert_least; [done|].
    eapply Forall_impl; [apply rest_distances|].
    intros y Hy. unfold byDistance; cbn [e_distance]. lra.
Qed.

Lemma Brachistochrone_leads_witness :
  head (rankings (drawFrame lateRun 6000)) = Some "Brachistochrone"%string.
Proof.
  assert (0 <= 0.2) as H0 by lra.
  assert (2.0 <= 2.5) as H1 by lra.
  destruct lateRun_fields as ((_ & _ & _ & _ & _ & _ & HE & _) & _).
  assert (0 <= cycloidParameter lateRun) as HE' by (rewrite HE; exact H0).
  destruct (Brachistochrone_leads lateRun 6000
              ("Brachistochrone"%string, Brachistochrone) HE'
              (in_curves_B _)) as [_ Hh].
  apply Hh. rewrite lateRun_elapsed. exact H1.
Defined.

(** * Invariants of the runs *)

(** What holds of the handled state and survives the effect holds after
    the event. *)
Lemma step_ind (P : State -> Prop) now s ev :
  (forall x t, P x -> P (useEffect (cleanup x) t)) ->
  P (handle ev s) -> P (step now s ev).
Proof. intros Heff Hh. unfold step. by apply settle_ind. Qed.

(** What every run of the effect establishes holds after the event as
    soon as it holds of the handled state when no effect runs. *)
Lemma step_established (P : State -> Prop) now s ev :
  (forall x t, P (useEffect (cleanup x) t)) ->
  (deps s = deps (handle ev s) -> P (handle ev s)) ->
  P (step now s ev).
Proof.
  intros Heff Hh. unfold step, rounds.
  destruct (decide (deps s = deps (handle ev s))) as [Hd | Hd].
  - rewrite settle_unchanged by done. by apply Hh.
  - rewrite settle_changed by done. apply settle_ind; [|apply Heff].
    intros x t _. apply Heff.
Qed.

Lemma reachable_ind_step (P : State -> Prop) :
  (forall now, P (mount now)) ->
  (forall now s ev, reachable s -> P s -> P (step now s ev)) ->
  forall s, reachable s -> P s.
Proof. intros Hm Hs s Hr. induction Hr; auto. Qed.

Lemma offeredRun_reachable s : offeredRun s -> reachable s.
Proof. induction 1; by constructor. Qed.

Lemma reachable_firstPaint : reachable firstPaint.
Proof. unfold firstPaint. constructor. Qed.

Lemma reachable_lateRun : reachable lateRun.
Proof. unfold lateRun. do 3 constructor. exact reachable_firstPaint. Qed.

Lemma reachable_finishedRun : reachable finishedRun.
Proof. unfold finishedRun. constructor. exact reachable_lateRun. Qed.

(** ** A frame is pending exactly while running *)

Lemma drawFrame_requestWhileRunning x ts :
  requestWhileRunning (drawFrame x ts).
Proof.
  unfold requestWhileRunning, drawFrame; cbn [animationState frameRequested].
  destruct (bool_decide (maxTime _ <= _)); [discriminate|].
  case_bool_decide as Hr; [done|]. intros H. by destruct Hr.
Qed.

Lemma useEffect_requestWhileRunning x t :
  requestWhileRunning (useEffect (cleanup x) t).
Proof.
  destruct (decide (animationState x = running)) as [Hr | Hr].
  - rewrite useEffect_running by done. by intros _.
  - rewrite useEffect_resting by done. apply drawFrame_requestWhileRunning.
Qed.

Lemma handle_requestWhileRunning ev s :
  requestWhileRunning s -> deps s = deps (handle ev s) ->
  requestWhileRunning (handle ev s).
Proof.
  intros Hs Hd.
  assert (animationState (handle ev s) = animationState s) as Ha
    by (unfold deps in Hd; congruence).
  destruct ev; cbn [handle] in *;
    try (intros H; rewrite Ha in H; apply Hs; exact H).
  destruct (frameRequested s) eqn:Hf.
  - apply drawFrame_requestWhileRunning.
  - intros H. specialize (Hs H). congruence.
Qed.

Lemma step_requestWhileRunning now s ev :
  requestWhileRunning s -> requestWhileRunning (step now s ev).
Proof.
  intros Hs. apply step_established.
  - apply useEffect_requestWhileRunning.
  - by apply handle_requestWhileRunning.
Qed.

Lemma reachable_request s :
  reachable s -> requestOnlyRunning s /\ requestWhileRunning s.
Proof.
  revert s. apply reachable_ind_step.
  - intros now. split; [apply mount_requestOnlyRunning|].
    destruct (mount_atRest now) as ((Ha & _) & _). intros H. congruence.
  - intros now s ev _ [H1 H2]. split;
      [by apply step_requestOnlyRunning | by apply step_requestWhileRunning].
Qed.

(** X6.  In every state the component can reach, an animation frame is
    requested exactly when the phase is [running]; outside [running] a
    frame callback therefore changes nothing. *)
Theorem frame_pending_iff_running s :
  reachable s ->
  (frameRequested s = true <-> animationState s = running) /\
  (animationState s <> running ->
   forall now ts, step now s (AnimationFrame ts) = s).
Proof.
  intros Hr. destruct (reachable_request s Hr) as [H1 H2].
  split; [by split|].
  intros Hne now ts. apply step_Frame_idle.
  destruct (frameRequested s) eqn:Hf; [|done]. by destruct Hne; apply H1.
Qed.

Lemma frame_pending_iff_running_witness :
  frameRequested lateRun = true /\
  step clock finishedRun (AnimationFrame 7000) = finishedRun.
Proof.
  destruct lateRun_fields as ((Ha & _) & _).
  destruct finishedRun_frozen as [(Hi & _) _].
  destruct (frame_pending_iff_running lateRun reachable_lateRun) as [Hl _].
  destruct (frame_pending_iff_running finishedRun reachable_finishedRun)
    as [_ Hf].
  split; [apply Hl; exact Ha|].
  apply Hf. rewrite Hi. discriminate.
Defined.

(** ** The rankings panel always has what it reads *)

Lemma newRankings_Permutation E e : newRankings E e ≡ₚ definitionOrder.
Proof. unfold newRankings. by rewrite progressData_labels, curves_labels. Qed.

Lemma definitionOrder_curve E l :
  l ∈ definitionOrder -> exists c, (l, c) ∈ curves E.
Proof.
  unfold definitionOrder. rewrite !elem_of_cons, elem_of_nil.
  intros [-> | [-> | [-> | [-> | []]]]]; eexists;
    [apply in_curves_B | apply in_curves_L | apply in_curves_P
    | apply in_curves_PC].
Qed.

Lemma drawFrame_snapshotComplete x ts : snapshotComplete (drawFrame x ts).
Proof.
  split.
  - rewrite drawFrame_rankings. apply newRankings_Permutation.
  - intros l Hl.
    destruct (definitionOrder_curve (cycloidParameter x) l Hl) as [c Hc].
    pose proof (drawFrame_distanceToEnd x ts (l, c) Hc) as H.
    cbn [fst snd] in H. by rewrite H.
Qed.

Lemma useEffect_snapshotComplete x t :
  snapshotComplete x -> snapshotComplete (useEffect (cleanup x) t).
Proof.
  intros Hx. destruct (decide (animationState x = running)) as [Hr | Hr].
  - by rewrite useEffect_running.
  - rewrite useEffect_resting by done. apply drawFrame_snapshotComplete.
Qed.

Lemma handle_snapshotComplete ev s :
  snapshotComplete s -> snapshotComplete (handle ev s).
Proof.
  intros Hs. destruct ev; try done. cbn [handle].
  destruct (frameRequested s); [apply drawFrame_snapshotComplete | done].
Qed.

Lemma reachable_snapshotComplete s : reachable s -> snapshotComplete s.
Proof.
  revert s. apply reachable_ind_step.
  - intros now. unfold mount. apply settle_ind.
    + intros x t. apply useEffect_snapshotComplete.
    + change (useEffect initial (now 0%nat)) with (drawFrame initial (now 0%nat)).
      apply drawFrame_snapshotComplete.
  - intros now s ev _ Hs. apply step_ind.
    + intros x t. apply useEffect_snapshotComplete.
    + by apply handle_snapshotComplete.
Qed.

Lemma snapshotComplete_displayMetric x l :
  snapshotComplete x -> l ∈ rankings x ->
  exists shown, displayMetric x l = Some shown.
Proof.
  intros [Hp Hd] Hl. rewrite Hp in Hl. unfold displayMetric.
  destruct (isAnimationComplete x); [by eexists|].
  destruct (Hd l Hl) as [d ->]. by eexists.
Qed.

(** X7.  In every state the component can reach, the rankings list each of
    the four labels once, and for every ranked label the row can be
    rendered: the curve (for its colour) is found and the display metric
    is defined, so [distanceToEnd[label].toFixed] is never called on
    [undefined]; the same holds of the state rendered right after an
    event, before the effect has run. *)
Theorem rankings_panel_renders s label :
  reachable s -> label ∈ rankings s ->
  rankings s ≡ₚ definitionOrder /\
  (exists c, curve_of (curves (cycloidParameter s)) label = Some c) /\
  (exists shown, displayMetric s label = Some shown) /\
  (forall ev l, l ∈ rankings (handle ev s) ->
     exists shown, displayMetric (handle ev s) l = Some shown).
Proof.
  intros Hr Hl. pose proof (reachable_snapshotComplete s Hr) as Hs.
  pose proof Hs as [Hp Hd].
  rewrite Hp in Hl. split; [done|]. split; [|split].
  - destruct (definitionOrder_curve (cycloidParameter s) label Hl) as [c Hc].
    exists c. exact (curve_of_curves _ (label, c) Hc).
  - by apply snapshotComplete_displayMetric; [|rewrite Hp].
  - intros ev l. apply snapshotComplete_displayMetric.
    by apply handle_snapshotComplete.
Qed.

Lemma rankings_panel_renders_witness :
  exists shown, displayMetric lateRun "Straight Line" = Some shown.
Proof.
  destruct lateRun_fields as (_ & Hk & _).
  assert ("Straight Line"%string ∈ rankings lateRun) as Hin
    by (rewrite Hk; compute_done).
  destruct (rankings_panel_renders lateRun "Straight Line"
              reachable_lateRun Hin) as (_ & _ & H & _).
  exact H.
Defined.

(** ** Finishing times are on record only for a complete run *)

Lemma drawFrame_timesOnlyComplete x ts :
  timesOnlyComplete x -> timesOnlyComplete (drawFrame x ts).
Proof.
  unfold timesOnlyComplete, drawFrame; cbn [isAnimationComplete elapsedTimes].
  intros Hx. destruct (bool_decide (maxTime _ <= _)); [discriminate|].
  intros Hc. rewrite Hc. by apply Hx.
Qed.

Lemma useEffect_timesOnlyComplete x t :
  timesOnlyComplete x -> timesOnlyComplete (useEffect (cleanup x) t).
Proof.
  intros Hx. destruct (decide (animationState x = running)) as [Hr | Hr].
  - by rewrite useEffect_running.
  - rewrite useEffect_resting by done. by apply drawFrame_timesOnlyComplete.
Qed.

Lemma handle_timesOnlyComplete ev s :
  timesOnlyComplete s -> timesOnlyComplete (handle ev s).
Proof.
  intros Hs. destruct ev; try done. cbn [handle].
  destruct (frameRequested s); [|done]. by apply drawFrame_timesOnlyComplete.
Qed.

Lemma reachable_timesOnlyComplete s : reachable s -> timesOnlyComplete s.
Proof.
  revert s. apply reachable_ind_step.
  - intros now. unfold mount. apply settle_ind.
    + intros x t. apply useEffect_timesOnlyComplete.
    + change (useEffect initial (now 0%nat)) with (drawFrame initial (now 0%nat)).
      by apply drawFrame_timesOnlyComplete.
  - intros now s ev _ Hs. apply step_ind.
    + intros x t. apply useEffect_timesOnlyComplete.
    + by apply handle_timesOnlyComplete.
Qed.

(** X8.  In every state the component can reach, no finishing time is on
    record unless the run is complete.  So the state rendered right after
    the finishing frame, before the effect has redrawn, is idle and
    complete with no time on record yet, and every row shows the fallback
    [0.00s] of line 405. *)
Theorem finishing_frame_shows_fallback s ts label :
  reachable s -> animationState s = running ->
  isAnimationComplete s = false ->
  maxTime (cycloidParameter s) <= elapsedTime s ts ->
  elapsedTimes s = ∅ /\
  let r := handle (AnimationFrame ts) s in
  animationState r = idle /\ isAnimationComplete r = true /\
  displayMetric r label = Some "0.00s"%string.
Proof.
  intros Hr Ha Hc Hfin.
  pose proof (reachable_timesOnlyComplete s Hr Hc) as Ht.
  destruct (reachable_request s Hr) as [_ Hq].
  split; [done|]. cbn [handle]. rewrite (Hq Ha).
  destruct (drawFrame_finishing (setFrameRequested false s) ts Hfin)
    as (Ha' & Hc' & _).
  split; [done|]. split; [done|].
  unfold displayMetric. rewrite Hc'.
  unfold drawFrame; cbn [elapsedTimes setFrameRequested isAnimationComplete].
  by rewrite Hc, Ht, lookup_empty.
Qed.

Lemma finishing_frame_shows_fallback_witness :
  displayMetric (handle (AnimationFrame 6000) lateRun) "Parabola"
  = Some "0.00s"%string.
Proof.
  destruct lateRun_fields as ((Ha & _ & _ & _ & _ & _ & _ & Hc) & _).
  destruct (finishing_frame_shows_fallback lateRun 6000 "Parabola"
              reachable_lateRun Ha Hc lateRun_finishes) as (_ & _ & _ & H).
  exact H.
Defined.

(** ** The previous rankings always differ from the rankings *)

Lemma drawFrame_supersededRankings x ts :
  (rankings x = [] /\ prevRankings x = []) \/ supersededRankings x ->
  supersededRankings (drawFrame x ts).
Proof.
  intros Hx. unfold supersededRankings.
  rewrite drawFrame_rankings, drawFrame_prevRankings.
  pose proof (newRankings_Permutation (cycloidParameter x) (elapsedTime x ts))
    as Hp.
  split; [done|]. case_bool_decide as Hch.
  - split; [done|]. destruct Hx as [[-> _] | (Hk & _)]; [by left | by right].
  - rewrite Hch.
    destruct Hx as [[Hk _] | (_ & Hne & Hq)]; [|done].
    rewrite Hk in Hch. rewrite Hch in Hp.
    by apply Permutation_nil_l in Hp.
Qed.

Lemma useEffect_supersededRankings x t :
  supersededRankings x -> supersededRankings (useEffect (cleanup x) t).
Proof.
  intros Hx. destruct (decide (animationState x = running)) as [Hr | Hr].
  - by rewrite useEffect_running.
  - rewrite useEffect_resting by done.
    apply drawFrame_supersededRankings. by right.
Qed.

Lemma handle_supersededRankings ev s :
  supersededRankings s -> supersededRankings (handle ev s).
Proof.
  intros Hs. destruct ev; try done. cbn [handle].
  destruct (frameRequested s); [|done].
  apply drawFrame_supersededRankings. by right.
Qed.

Lemma reachable_supersededRankings s : reachable s -> supersededRankings s.
Proof.
  revert s. apply reachable_ind_step.
  - intros now. unfold mount. apply settle_ind.
    + intros x t. apply useEffect_supersededRankings.
    + change (useEffect initial (now 0%nat)) with (drawFrame initial (now 0%nat)).
      apply drawFrame_supersededRankings. by left.
  - intros now s ev _ Hs. apply step_ind.
    + intros x t. apply useEffect_supersededRankings.
    + by apply handle_supersededRankings.
Qed.

(** Two different lists of one length, the first without duplicates, have
    a row whose label stood elsewhere in the second. *)
Lemma indexOf_mismatch (r : list string) :
  forall p, NoDup r -> length p = length r -> r <> p ->
  exists (i : nat) l, r !! i = Some l /\ indexOf p l <> Z.of_nat i.
Proof.
  induction r as [|x r IH]; intros p Hnd Hlen Hne.
  - destruct p; [done | discriminate].
  - destruct p as [|y p]; [discriminate|].
    apply NoDup_cons in Hnd as [Hx Hnd].
    destruct (decide (y = x)) as [-> | Hyx].
    + destruct (IH p Hnd) as (i & l & Hi & Hidx);
        [by injection Hlen | congruence |].
      exists (S i), l. split; [done|]. cbn [indexOf].
      destruct (decide (x = l)) as [-> | _].
      * destruct Hx. by eapply list_elem_of_lookup_2.
      * destruct (Z.ltb_spec (indexOf p l) 0); lia.
    + exists 0%nat, x. split; [done|]. cbn [indexOf].
      rewrite decide_False by done.
      destruct (Z.ltb_spec (indexOf p x) 0); lia.
Qed.

(** X9.  In every state the component can reach, the previous rankings
    differ from the rankings (they are replaced only when the rankings
    change, and are empty on first paint).  So whenever the run is not
    complete, at least one row of the panel shows an up or a down
    indicator, also when nothing has moved. *)
Theorem some_indicator_always_shown s :
  reachable s ->
  rankings s <> prevRankings s /\
  (isAnimationComplete s = false ->
   exists (i : nat) label,
     rankings s !! i = Some label /\ rankIndicator s label i <> NoIndicator).
Proof.
  intros Hr. destruct (reachable_supersededRankings s Hr) as (Hp & Hne & Hq).
  split; [done|]. intros Hc.
  assert (exists (i : nat) l, rankings s !! i = Some l /\
            indexOf (prevRankings s) l <> Z.of_nat i) as (i & l & Hi & Hidx).
  { destruct Hq as [Hq | Hq].
    - rewrite Hq. destruct (rankings s) as [|x r] eqn:Hk.
      + by apply Permutation_nil_l in Hp.
      + exists 0%nat, x. split; [done|]. cbn. lia.
    - apply indexOf_mismatch; [| |done].
      + rewrite Hp. exact definitionOrder_NoDup.
      + by rewrite Hp, Hq. }
  exists i, l. split; [done|]. unfold rankIndicator. rewrite Hc.
  destruct (Z.eqb_spec (indexOf (prevRankings s) l) (Z.of_nat i)); [done|].
  cbn [negb andb]. by destruct (_ >? _)%Z.
Qed.

Lemma some_indicator_always_shown_witness :
  exists (i : nat) label,
    rankings firstPaint !! i = Some label /\
    rankIndicator firstPaint label i <> NoIndicator.
Proof.
  destruct firstPaint_config as (_ & _ & _ & _ & Hc & _).
  destruct (some_indicator_always_shown firstPaint reachable_firstPaint)
    as [_ H].
  exact (H Hc).
Defined.

(** ** What the controls keep true *)

Lemma elapsedTime_ge s ts :
  offered s (AnimationFrame ts) -> 0 <= animationSpeed s ->
  pausedElapsedTime s <= elapsedTime s ts.
Proof.
  intros Ho Hv. unfold elapsedTime. destruct (animationState s); try lra.
  assert (0 <= ts - or_else (lastSeen s ts) ts) as Hd.
  { unfold lastSeen. destruct (startTimeRef s).
    - cbn [offered] in Ho. destruct (lastTimestampRef s) as [l|]; cbn.
      + destruct (decide (l = 0)); lra.
      + lra.
    - cbn. destruct (decide (ts = 0)); lra. }
  cbn zeta.
  assert (0 <= (ts - or_else (lastSeen s ts) ts) / 1000 * animationSpeed s)
    by (apply Rmult_le_pos; lra).
  lra.
Qed.

Lemma drawFrame_banked_ge x ts :
  offered x (AnimationFrame ts) -> 0 <= animationSpeed x ->
  pausedElapsedTime x <= pausedElapsedTime (drawFrame x ts).
Proof.
  intros Ho Hv. unfold drawFrame; cbn [pausedElapsedTime].
  destruct (bool_decide (maxTime _ <= _)); [lra|].
  destruct (bool_decide (animationState x = running)); [|lra].
  by apply elapsedTime_ge.
Qed.

Lemma drawFrame_withinControls x ts :
  offered x (AnimationFrame ts) ->
  withinControls x -> withinControls (drawFrame x ts).
Proof.
  intros Ho (Hc & Hv & HE & Hp).
  pose proof (drawFrame_banked_ge x ts Ho ltac:(lra)) as Hge.
  split; [|split; [done|split; [done|lra]]].
  unfold drawFrame; cbn [isAnimationComplete animationState].
  destruct (bool_decide (maxTime _ <= _)); [done|]. exact Hc.
Qed.

Lemma useEffect_banked x t :
  pausedElapsedTime (useEffect (cleanup x) t) = pausedElapsedTime x.
Proof.
  destruct (decide (animationState x = running)) as [Hr | Hr].
  - by rewrite useEffect_running.
  - rewrite useEffect_resting by done.
    by destruct (redraw_fields x t Hr) as (_ & _ & -> & _).
Qed.

Lemma useEffect_withinControls x t :
  withinControls x -> withinControls (useEffect (cleanup x) t).
Proof.
  intros (Hc & Hv & HE & Hp).
  destruct (decide (animationState x = running)) as [Hr | Hr].
  - by rewrite useEffect_running.
  - rewrite useEffect_resting by done.
    destruct (redraw_fields x t Hr) as (Ha' & Hc' & Hp' & Hv' & HE' & _).
    unfold withinControls. rewrite Ha', Hc', Hp', Hv', HE'.
    split; [|done]. by destruct (finishedAt x).
Qed.

Lemma handle_withinControls ev s :
  offered s ev -> withinControls s -> withinControls (handle ev s).
Proof.
  intros Ho Hs. pose proof Hs as (Hc & Hv & HE & Hp).
  destruct ev; cbn [handle offered] in *.
  - split; [done|]. split; [done|]. split; [done|]. cbn. lra.
  - split; [|done]. cbn. intros H. specialize (Hc H). congruence.
  - split; [|done]. cbn. intros H. specialize (Hc H). congruence.
  - split; [done|]. split; [done|]. split; [done|]. cbn. lra.
  - by split.
  - by split.
  - destruct (frameRequested s); [|done].
    by apply drawFrame_withinControls.
Qed.

Lemma mount_withinControls now : withinControls (mount now).
Proof.
  destruct (mount_atRest now) as ((Ha & Hp & Hv & HE & Hc & _) & _).
  unfold withinControls. rewrite Ha, Hp, Hv, HE. repeat split; lra.
Qed.

Lemma offeredRun_withinControls s : offeredRun s -> withinControls s.
Proof.
  induction 1 as [now | now s ev _ IH Ho].
  - apply mount_withinControls.
  - apply step_ind.
    + intros x t. apply useEffect_withinControls.
    + by apply handle_withinControls.
Qed.

Lemma offeredRun_firstPaint : offeredRun firstPaint.
Proof. unfold firstPaint. constructor. Qed.

Lemma offered_Frame s ts last :
  lastTimestampRef s = Some last -> last <= ts ->
  offered s (AnimationFrame ts).
Proof. intros Hl Hle. cbn [offered]. by rewrite Hl. Qed.

Lemma offered_Frame_first s ts :
  lastTimestampRef s = None -> offered s (AnimationFrame ts).
Proof. intros Hl. cbn [offered]. by rewrite Hl. Qed.

Lemma lateRun_offered_5900 : offered lateRun (AnimationFrame 5900).
Proof.
  assert (5800 <= 5900) as Hle by lra.
  destruct lateRun_fields as ((_ & _ & Hl & _) & _).
  exact (offered_Frame lateRun 5900 5800 Hl Hle).
Qed.

Lemma offeredRun_lateRun : offeredRun lateRun.
Proof.
  assert (1000 <= 5800) as Hle by lra.
  pose proof firstPaint_config as Hcfg.
  pose proof Hcfg as (Ha & _).
  assert (animationState firstPaint <> running) as Hr
    by (rewrite Ha; discriminate).
  destruct (started_once clock firstPaint 0.5 0.2 1000 Hcfg)
    as [(_ & _ & Hl & _) _].
  unfold lateRun. apply offeredRun_step; [apply offeredRun_step;
    [apply offeredRun_step; [exact offeredRun_firstPaint | exact Ha] | ] | ].
  - apply offered_Frame_first. rewrite (step_Start clock firstPaint Hr).
    reflexivity.
  - exact (offered_Frame _ 5800 1000 Hl Hle).
Qed.

(** X10.  As long as only the controls the page offers are used (each
    button while it is enabled, the sliders within their [min] and [max],
    frame timestamps that do not run backwards), a complete run is idle,
    the speed stays within [0.1, 2], the shape parameter within [0, 1],
    the banked time is not negative, every curve has a positive total
    time and the longest total time lies between [2.5] and [4]. *)
Theorem controls_keep_ranges s :
  offeredRun s ->
  withinControls s /\
  (forall lc, lc ∈ curves (cycloidParameter s) -> 0 < time (snd lc)) /\
  2.5 <= maxTime (cycloidParameter s) <= 4.
Proof.
  intros Hs. pose proof (offeredRun_withinControls s Hs) as Hw.
  pose proof Hw as (_ & _ & HE & _).
  split; [done|]. split.
  - intros lc. apply curves_time_pos. lra.
  - rewrite maxTime_eq. split; [apply Rmax_l|].
    apply Rmax_lub; lra.
Qed.

Lemma controls_keep_ranges_witness :
  0 <= pausedElapsedTime lateRun /\ 2.5 <= maxTime (cycloidParameter lateRun) <= 4.
Proof.
  destruct (controls_keep_ranges lateRun offeredRun_lateRun)
    as ((_ & _ & _ & Hp) & _ & Hm).
  split; [exact Hp | exact Hm].
Defined.

(** X11.  Under the offered controls the banked elapsed time never runs
    backwards: every event other than [start()] and [reset()] leaves it
    where it was or moves it forward. *)
Theorem banked_time_monotone now s ev :
  offeredRun s -> offered s ev -> ev <> ClickStart -> ev <> ClickReset ->
  pausedElapsedTime s <= pausedElapsedTime (step now s ev).
Proof.
  intros Hs Ho Hst Hrs.
  destruct (offeredRun_withinControls s Hs) as (_ & Hv & _).
  apply (step_ind (fun x => pausedElapsedTime s <= pausedElapsedTime x)).
  - intros x t Hx. by rewrite useEffect_banked.
  - destruct ev; try done; cbn [handle]; try (cbn; lra).
    destruct (frameRequested s); [|lra].
    apply (drawFrame_banked_ge (setFrameRequested false s)); [done|].
    cbn. lra.
Qed.

Lemma banked_time_monotone_witness :
  pausedElapsedTime lateRun
  <= pausedElapsedTime (step clock lateRun (AnimationFrame 5900)).
Proof.
  apply banked_time_monotone;
    [exact offeredRun_lateRun | exact lateRun_offered_5900
    | discriminate | discriminate].
Defined.

(** ** Buttons and sliders *)

(** X12.  Only frame callbacks move the clock: pausing, resuming and both
    sliders leave the banked elapsed time as it is, in any state. *)
Theorem clock_moves_on_frames_only now s v :
  pausedElapsedTime (step now s ClickPause) = pausedElapsedTime s /\
  pausedElapsedTime (step now s ClickResume) = pausedElapsedTime s /\
  pausedElapsedTime (step now s (SlideSpeed v)) = pausedElapsedTime s /\
  pausedElapsedTime (step now s (SlideShape v)) = pausedElapsedTime s.
Proof.
  repeat split;
    (apply (step_ind (fun x => pausedElapsedTime x = pausedElapsedTime s));
     [intros x t Hx; by rewrite useEffect_banked | reflexivity]).
Qed.

Lemma step_Start_fields now s :
  requestWhileRunning s ->
  let s' := step now s ClickStart in
  animationState s' = running /\ pausedElapsedTime s' = 0 /\
  startTimeRef s' = None /\ lastTimestampRef s' = None /\
  isAnimationComplete s' = false /\ elapsedTimes s' = ∅ /\
  frameRequested s' = true /\
  animationSpeed s' = animationSpeed s /\
  cycloidParameter s' = cycloidParameter s /\
  rankings s' = rankings s /\ prevRankings s' = prevRankings s /\
  distanceToEnd s' = distanceToEnd s.
Proof.
  intros Hq. destruct (decide (animationState s = running)) as [Hr | Hr].
  - cbn zeta. unfold step, handle, rounds. rewrite settle_running by done.
    destruct (deps_changed _ _); cbn; repeat split; by apply Hq.
  - cbn zeta. rewrite step_Start by done. by repeat split.
Qed.

(** X13.  From every state the component can reach, [start()] begins a
    fresh run: running with a frame requested, nothing banked, both
    timestamps and the finishing times cleared and the completion flag
    down, while speed, shape parameter, rankings, previous rankings and
    distances are kept; the first frame of the run then adds no time,
    whatever its timestamp. *)
Theorem start_begins_fresh_run now s ts :
  reachable s ->
  let s' := step now s ClickStart in
  (animationState s' = running /\ frameRequested s' = true /\
   pausedElapsedTime s' = 0 /\ startTimeRef s' = None /\
   lastTimestampRef s' = None /\ isAnimationComplete s' = false /\
   elapsedTimes s' = ∅) /\
  (animationSpeed s' = animationSpeed s /\
   cycloidParameter s' = cycloidParameter s /\
   rankings s' = rankings s /\ prevRankings s' = prevRankings s /\
   distanceToEnd s' = distanceToEnd s) /\
  elapsedTime s' ts = 0.
Proof.
  intros Hr s'. destruct (reachable_request s Hr) as [_ Hq].
  destruct (step_Start_fields now s Hq)
    as (Ha & Hp & Hs & Hl & Hc & Ht & Hf & Hv & HE & Hk & Hpk & Hd).
  fold s' in Ha, Hp, Hs, Hl, Hc, Ht, Hf, Hv, HE, Hk, Hpk, Hd.
  split; [done|]. split; [done|].
  rewrite elapsedTime_first by auto. exact Hp.
Qed.

Lemma start_begins_fresh_run_witness :
  pausedElapsedTime (step clock lateRun ClickStart) = 0 /\
  elapsedTime (step clock lateRun ClickStart) 9000 = 0.
Proof.
  destruct (start_begins_fresh_run clock lateRun 9000 reachable_lateRun)
    as ((_ & _ & Hp & _) & _ & He).
  split; [exact Hp | exact He].
Defined.

(** X14.  A change of the speed slider during a run takes effect for the
    whole interval since the last frame: the banked time is untouched, and
    the next frame adds the time since the last frame multiplied by the
    new speed. *)
Theorem speed_change_applies_to_open_interval now s v ts t0 last :
  animationState s = running ->
  startTimeRef s = Some t0 -> lastTimestampRef s = Some last -> last <> 0 ->
  let s' := step now s (SlideSpeed v) in
  animationState s' = running /\
  pausedElapsedTime s' = pausedElapsedTime s /\
  elapsedTime s' ts = pausedElapsedTime s + (ts - last) / 1000 * v.
Proof.
  intros Hr Hs Hl Hz s'. subst s'. unfold step, handle, rounds.
  rewrite settle_running by done.
  destruct (deps_changed _ _).
  - split; [done|]. split; [done|].
    by rewrite (elapsedTime_next _ ts t0 last).
  - split; [done|]. split; [done|].
    by rewrite (elapsedTime_next _ ts t0 last).
Qed.

Lemma speed_change_applies_to_open_interval_witness :
  elapsedTime (step clock lateRun (SlideSpeed 2)) 5900
  = pausedElapsedTime lateRun + (5900 - 5800) / 1000 * 2.
Proof.
  assert (5800 <> 0) as Hz by lra.
  destruct lateRun_fields as ((Ha & _ & Hl & (t0 & Hs) & _) & _).
  destruct (speed_change_applies_to_open_interval clock lateRun 2 5900 t0 5800
              Ha Hs Hl Hz) as (_ & _ & H).
  exact H.
Defined.

(** ** A shape change can finish a run that is not running *)

Lemma paused_run now s v E t1 t2 :
  config v E s -> t1 <> 0 -> (t2 - t1) / 1000 * v < maxTime E ->
  let s' :=
    step now
      (step now (step now (step now s ClickStart) (AnimationFrame t1))
         (AnimationFrame t2))
      ClickPause in
  animationState s' = paused /\
  pausedElapsedTime s' = (t2 - t1) / 1000 * v /\
  cycloidParameter s' = E /\ isAnimationComplete s' = false.
Proof.
  intros Hcfg Ht1 Hlt.
  destruct (started_run now s v E t1 t2 Hcfg Ht1 Hlt)
    as ((Ha & Hp & _ & _ & _ & _ & HE & Hc) & _).
  cbn zeta in *.
  set (s2 := step now (step now (step now s ClickStart) (AnimationFrame t1))
               (AnimationFrame t2)) in *.
  destruct (step_Pause now s2 Ha) as (Ha' & Hp' & _ & HE' & Hc').
  { by rewrite Hp, HE. }
  rewrite Ha', Hp', HE', Hc'. done.
Qed.

Lemma pausedLate_fields :
  animationState pausedLate = paused /\ pausedElapsedTime pausedLate = 3 /\
  cycloidParameter pausedLate = 1 /\ isAnimationComplete pausedLate = false.
Proof.
  assert (1000 <> 0) as Ht1 by lra.
  assert ((7000 - 1000) / 1000 * 0.5 < maxTime 1) as Hlt
    by (rewrite maxTime_eq; pose proof (Rmax_r 2.5 (2.0 * (1 + 1))); lra).
  assert ((7000 - 1000) / 1000 * 0.5 = 3) as He by lra.
  pose proof (step_Shape_config clock firstPaint 0.5 0.2 1 firstPaint_config)
    as Hcfg.
  unfold pausedLate.
  destruct (paused_run clock _ 0.5 1 1000 7000 Hcfg Ht1 Hlt)
    as (Ha & Hp & HE & Hc).
  rewrite Ha, Hp, HE, Hc, He. done.
Qed.

(** X15.  A run can finish without a frame: when the component is not
    running and the shape slider moves to a value under which the longest
    total time no longer exceeds the banked time, the redraw ends the run:
    idle, complete, no frame requested, the finishing times of the new
    curve set on record. *)
Theorem shape_change_finishes_resting_run now s v :
  animationState s <> running -> v <> cycloidParameter s ->
  maxTime v <= pausedElapsedTime s ->
  frozen (step now s (SlideShape v)) /\
  cycloidParameter (step now s (SlideShape v)) = v.
Proof.
  intros Hr Hv Hfin. unfold step, handle, rounds.
  set (x := setCycloidParameter v s).
  assert (animationState x <> running) as Hrx by done.
  assert (finishedAt x = true) as Hfx
    by (unfold finishedAt; by apply bool_decide_true).
  rewrite settle_changed by (apply deps_shape; cbn; congruence).
  rewrite useEffect_resting by done.
  destruct (redraw_fields x (now 0%nat) Hrx)
    as (Ha1 & Hc1 & _ & _ & HE1 & _ & Hf1).
  rewrite Hfx in Ha1, Hc1.
  set (s1 := drawFrame (cleanup x) (now 0%nat)) in *.
  destruct (decide (deps x = deps s1)) as [Hd | Hd].
  - rewrite settle_unchanged by done. split; [|done].
    assert (isAnimationComplete x = true) as Hcx
      by (unfold deps in Hd; congruence).
    repeat split; try done.
    intros lc Hin. rewrite HE1 in Hin.
    by apply (drawFrame_elapsedTimes (cleanup x) (now 0%nat) lc).
  - rewrite settle_changed by done.
    rewrite useEffect_resting
      by (change (animationState s1 <> running); congruence).
    destruct (redraw_frozen s1 (now 1%nat) Ha1 Hc1) as [Hfr HE].
    apply settle_frozen; [done|]. by rewrite HE, HE1.
Qed.

Lemma shape_change_finishes_resting_run_witness :
  animationState (step clock pausedLate (SlideShape 0)) = idle /\
  isAnimationComplete (step clock pausedLate (SlideShape 0)) = true.
Proof.
  assert (0 <> 1) as Hne by lra.
  assert (maxTime 0 <= 3) as Hle
    by (rewrite maxTime_eq; apply Rmax_lub; lra).
  destruct pausedLate_fields as (Ha & Hp & HE & _).
  rewrite <- HE in Hne. rewrite <- Hp in Hle.
  assert (animationState pausedLate <> running) as Hr
    by (rewrite Ha; discriminate).
  destruct (shape_change_finishes_resting_run clock pausedLate 0 Hr Hne Hle)
    as [(Hi & Hc & _) _].
  split; [exact Hi | exact Hc].
Defined.

(** ** The render loop comes to rest *)

Lemma atFixedPoint_running x : animationState x = running -> atFixedPoint x.
Proof. intros Hr t. by rewrite useEffect_running. Qed.

Lemma useEffect_atFixedPoint x t : atFixedPoint (useEffect (cleanup x) t).
Proof.
  destruct (decide (animationState x = running)) as [Hr | Hr].
  - rewrite useEffect_running by done. by apply atFixedPoint_running.
  - rewrite useEffect_resting by done. intros t'.
    rewrite useEffect_resting by (by apply redraw_resting).
    by apply redraw_twice.
Qed.

(** The dependencies after a redraw are a function of those before. *)
Lemma redraw_deps x y t :
  animationState x <> running -> deps x = deps y ->
  deps (drawFrame (cleanup x) t) = deps (drawFrame (cleanup y) t).
Proof.
  intros Hx Hd.
  assert (animationState y <> running) as Hy
    by (unfold deps in Hd; congruence).
  destruct (redraw_fields x t Hx) as (Ha & Hc & Hp & Hv & HE & Hk & _).
  destruct (redraw_fields y t Hy) as (Ha' & Hc' & Hp' & Hv' & HE' & Hk' & _).
  unfold deps. rewrite Ha, Hc, Hp, Hv, HE, Hk, Ha', Hc', Hp', Hv', HE', Hk'.
  unfold finishedAt. unfold deps in Hd.
  injection Hd as H1 H2 H3 H4 H5 H6. by rewrite H1, H2, H3, H4, H6.
Qed.

Lemma atFixedPoint_deps x y :
  deps x = deps y -> atFixedPoint x -> atFixedPoint y.
Proof.
  intros Hd Hx. destruct (decide (animationState y = running)) as [Hr | Hr].
  - by apply atFixedPoint_running.
  - assert (animationState x <> running) as Hrx
      by (unfold deps in Hd; congruence).
    intros t. specialize (Hx t). rewrite useEffect_resting in Hx |- * by done.
    by rewrite <- (redraw_deps x y t Hrx Hd), Hx.
Qed.

Lemma reachable_atFixedPoint s : reachable s -> atFixedPoint s.
Proof.
  revert s. apply reachable_ind_step.
  - intros now. unfold mount. apply settle_ind.
    + intros x t _. apply useEffect_atFixedPoint.
    + apply (useEffect_atFixedPoint initial).
  - intros now s ev _ Hs. apply step_established.
    + apply useEffect_atFixedPoint.
    + intros Hd. by apply (atFixedPoint_deps s).
Qed.

(** X16.  Every state the component can reach is a fixed point of the
    render loop: running the effect once more changes none of its
    dependencies, so React stops re-rendering; and allowing the loop more
    than three rounds after an event gives the same state. *)
Theorem render_loop_at_rest now s ev n t :
  reachable s ->
  deps (useEffect (cleanup s) t) = deps s /\
  settle (rounds + n) now 0 s (handle ev s) = step now s ev.
Proof.
  intros Hr. split; [by apply reachable_atFixedPoint|]. apply settle_enough.
Qed.

Lemma render_loop_at_rest_witness :
  deps (useEffect (cleanup finishedRun) 7000) = deps finishedRun.
Proof.
  destruct (render_loop_at_rest clock finishedRun ClickPause 0 7000
              reachable_finishedRun) as [H _].
  exact H.
Defined.

(** * The canvas *)

Lemma progress_of_unit e c : 0 <= e -> 0 < time c -> 0 <= progress_of e c <= 1.
Proof.
  intros He Hc. unfold progress_of. split; [|apply Rmin_r].
  apply Rmin_glb; [|lra].
  apply Rmult_le_pos; [done|]. left. by apply Rinv_0_lt_compat.
Qed.

(** Up to [E = 1/2] the ordinate of the tunable curve is at most [9/8]. *)
Lemma Parametric_Cycloid_y_half E t :
  0 <= E <= 1 / 2 -> snd (func (Parametric_Cycloid E) t) <= 9 / 8.
Proof.
  intros [HE0 HE1]. rewrite Parametric_Cycloid_snd, sin_pow2.
  pose proof (COS_bound (PI * t)) as [Hc0 Hc1].
  set (c := cos (PI * t)) in *.
  assert (0 <= (1 / 2 - E) * ((1 - c) * (1 + c)))
    by (apply Rmult_le_pos; [lra | apply Rmult_le_pos; lra]).
  assert (0 <= (2 * c + 1) ^ 2) by apply pow2_ge_0.
  lra.
Qed.

Lemma ballCentre_onCanvas p :
  0 <= fst p <= 1 -> 0 <= snd p <= 9 / 8 ->
  onCanvas (ballCentre p) ballRadius.
Proof.
  intros [Hx0 Hx1] [Hy0 Hy1].
  unfold onCanvas, ballCentre, ballRadius, graphWidth, graphHeight,
    canvasWidth, canvasHeight, marginLeft, marginRight, marginTop,
    marginBottom. cbn [fst snd]. lra.
Qed.

(** X17.  For a shape parameter up to [1/2] and an elapsed time that is
    not negative, every ball the frame draws lies on the canvas with its
    whole disc: the margins of 70 and 50 pixels leave room for the radius
    of 8, and the tunable curve dips at most an eighth below the graph. *)
Theorem balls_stay_on_canvas E e lc :
  0 <= E <= 1 / 2 -> 0 <= e -> lc ∈ curves E ->
  onCanvas (animatedBall e (snd lc)) ballRadius.
Proof.
  intros HE He Hin.
  pose proof (progress_of_unit e (snd lc) He
                (curves_time_pos E lc ltac:(lra) Hin)) as Hp.
  unfold animatedBall. set (t := progress_of e (snd lc)) in *.
  apply curves_cases in Hin as [-> | [-> | [-> | ->]]]; cbn [snd] in *.
  - destruct (Brachistochrone_square t Hp) as [Hx Hy].
    apply ballCentre_onCanvas; [done | lra].
  - destruct (Straight_Line_square t Hp) as [Hx Hy].
    apply ballCentre_onCanvas; [done | lra].
  - destruct (Parabola_square t Hp) as [Hx Hy].
    apply ballCentre_onCanvas; [done | lra].
  - apply ballCentre_onCanvas.
    + by apply Parametric_Cycloid_x.
    + split; [apply Parametric_Cycloid_y_lower; lra
             | by apply Parametric_Cycloid_y_half].
Qed.

Lemma balls_stay_on_canvas_witness :
  onCanvas (animatedBall 1.5 (Parametric_Cycloid 0.5)) ballRadius.
Proof.
  apply (balls_stay_on_canvas 0.5 1.5
           ("Parametric Cycloid"%string, Parametric_Cycloid 0.5));
    [lra | lra | apply in_curves_PC].
Defined.

(** X18.  From a shape parameter of [0.8] on, the ball of the tunable
    curve leaves the canvas: halfway through its run its whole disc lies
    below the lower edge. *)
Theorem tunable_ball_leaves_canvas E :
  0.8 <= E ->
  progress_of (1 + E) (Parametric_Cycloid E) = 1 / 2 /\
  canvasHeight
  < snd (animatedBall (1 + E) (Parametric_Cycloid E)) - ballRadius.
Proof.
  intros HE.
  assert (progress_of (1 + E) (Parametric_Cycloid E) = 1 / 2) as Hp.
  { rewrite progress_of_running; cbn [time Parametric_Cycloid]; [|lra|lra].
    replace (2.0 * (1 + E)) with (2 * (1 + E)) by lra. field. lra. }
  split; [done|]. unfold animatedBall. rewrite Hp.
  unfold ballCentre. cbn [snd]. rewrite Parametric_Cycloid_snd.
  replace (PI * (1 / 2)) with (PI / 2) by lra.
  rewrite sin_PI2, cos_PI2.
  unfold ballRadius, graphHeight, canvasHeight, marginTop, marginBottom. lra.
Qed.

Lemma tunable_ball_leaves_canvas_witness :
  canvasHeight
  < snd (animatedBall (1 + 1) (Parametric_Cycloid 1)) - ballRadius.
Proof.
  destruct (tunable_ball_leaves_canvas 1 ltac:(lra)) as [_ H]. exact H.
Defined.

(** * The instructions page *)

Module InstructionsPageFacts.
Import InstructionsPage.

Lemma INR_steps : INR steps = 100.
Proof. unfold steps. rewrite INR_IZR_INZ. reflexivity. Qed.

Lemma indices_lookup (i : nat) : (i <= steps)%nat -> indices !! i = Some i.
Proof. intros Hi. unfold indices. rewrite lookup_seq_lt by lia. done. Qed.

Lemma generateBrachistochronePath_lookup (i : nat) :
  (i <= steps)%nat ->
  generateBrachistochronePath !! i
  = Some (scaled300 (func Brachistochrone (INR i / 100))).
Proof.
  intros Hi. unfold generateBrachistochronePath.
  rewrite list_lookup_fmap, indices_lookup by done. cbn [fmap option_fmap option_map].
  rewrite INR_steps. unfold scaled300. cbn [func Brachistochrone fst snd].
  replace (INR i / 100 * PI) with (PI * INR i / 100) by lra. done.
Qed.

Lemma generateParametricCycloidPath_lookup E (i : nat) :
  (i <= steps)%nat ->
  generateParametricCycloidPath E !! i
  = Some (scaled300 (func (Parametric_Cycloid (- E)) (INR i / 100))).
Proof.
  intros Hi. unfold generateParametricCycloidPath.
  rewrite list_lookup_fmap, indices_lookup by done. cbn [fmap option_fmap option_map].
  rewrite INR_steps. unfold scaled300. cbn [func Parametric_Cycloid fst snd].
  f_equal. f_equal. lra.
Qed.

Lemma INR_fraction (i : nat) : (i <= steps)%nat -> 0 <= INR i / 100 <= 1.
Proof.
  intros Hi. pose proof (pos_INR i). apply le_INR in Hi.
  rewrite INR_steps in Hi. lra.
Qed.

Lemma scaled300_inViewBox p : in_unit_square p -> inViewBox (scaled300 p).
Proof. intros [[? ?] [? ?]]. unfold inViewBox, scaled300; cbn. lra. Qed.

End InstructionsPageFacts.

(** Along the Brachistochrone both coordinates grow with the progress. *)
Lemma Brachistochrone_increasing a b :
  0 <= a -> a < b -> b <= 1 ->
  fst (func Brachistochrone a) < fst (func Brachistochrone b) /\
  snd (func Brachistochrone a) < snd (func Brachistochrone b).
Proof.
  intros Ha Hab Hb. pose proof PI_RGT_0 as Hpi. cbn [func Brachistochrone fst snd].
  assert (0 <= a * PI) as Ha0 by nra.
  assert (a * PI < b * PI) as Hlt by nra.
  assert (b * PI <= PI) as Hb1 by nra.
  set (x := a * PI) in *. set (y := b * PI) in *.
  split.
  - assert (sin y - sin x < y - x) as Hs.
    { rewrite form4.
      set (h := (y - x) / 2). assert (0 < h) as Hh by (unfold h; lra).
      assert (2 * h = y - x) as H2h by (unfold h; lra).
      pose proof (sin_lt_x h Hh) as Hsin.
      pose proof (sin_ge_0 h ltac:(lra) ltac:(unfold h; lra)) as Hs0.
      pose proof (COS_bound ((y + x) / 2)) as [_ Hc].
      assert (cos ((y + x) / 2) * sin h <= 1 * sin h)
        by (apply Rmult_le_compat_r; lra).
      lra. }
    apply Rmult_lt_compat_r; [by apply Rinv_0_lt_compat | lra].
  - pose proof (cos_decreasing_1 x y ltac:(lra) ltac:(lra) ltac:(lra)
                  ltac:(lra) Hlt).
    lra.
Qed.

(** X19.  The polyline of the instructions page for the Brachistochrone
    has 101 points.  It starts in the corner [(0,0)] of the view box and
    ends in the corner [(300,300)]; every point lies inside the view box,
    and from each point to any later one both coordinates grow, so the
    polyline runs to the right and downwards throughout. *)
Theorem instructions_Brachistochrone_path (i j : nat) p q :
  InstructionsPage.generateBrachistochronePath !! i = Some p ->
  InstructionsPage.generateBrachistochronePath !! j = Some q ->
  length InstructionsPage.generateBrachistochronePath = 101%nat /\
  InstructionsPage.generateBrachistochronePath !! 0%nat = Some (0, 0) /\
  InstructionsPage.generateBrachistochronePath !! 100%nat = Some (300, 300) /\
  InstructionsPage.inViewBox p /\
  ((i < j)%nat -> fst p < fst q /\ snd p < snd q).
Proof.
  intros Hp Hq.
  assert (length InstructionsPage.generateBrachistochronePath = 101%nat)
    as Hlen
    by (unfold InstructionsPage.generateBrachistochronePath;
        by rewrite length_fmap).
  assert (i <= InstructionsPage.steps)%nat as Hi
    by (apply lookup_lt_Some in Hp; unfold InstructionsPage.steps; lia).
  assert (j <= InstructionsPage.steps)%nat as Hj
    by (apply lookup_lt_Some in Hq; unfold InstructionsPage.steps; lia).
  rewrite InstructionsPageFacts.generateBrachistochronePath_lookup in Hp, Hq
    by done.
  assert (p = scaled300 (func Brachistochrone (INR i / 100))) as ->
    by congruence.
  assert (q = scaled300 (func Brachistochrone (INR j / 100))) as ->
    by congruence.
  clear Hp Hq.
  pose proof (InstructionsPageFacts.INR_fraction i Hi) as Hti.
  pose proof (InstructionsPageFacts.INR_fraction j Hj) as Htj.
  split; [done|]. split; [|split; [|split]].
  - rewrite InstructionsPageFacts.generateBrachistochronePath_lookup
      by (unfold InstructionsPage.steps; lia).
    replace (INR 0 / 100) with 0 by (cbn; lra).
    rewrite Brachistochrone_start. unfold scaled300; cbn. do 2 f_equal; lra.
  - rewrite InstructionsPageFacts.generateBrachistochronePath_lookup
      by (unfold InstructionsPage.steps; lia).
    replace (INR 100 / 100) with 1
      by (change 100%nat with InstructionsPage.steps;
          rewrite InstructionsPageFacts.INR_steps; lra).
    rewrite Brachistochrone_end. unfold scaled300; cbn. do 2 f_equal; lra.
  - apply InstructionsPageFacts.scaled300_inViewBox.
    by apply Brachistochrone_square.
  - intros Hij. apply lt_INR in Hij.
    destruct (Brachistochrone_increasing (INR i / 100) (INR j / 100))
      as [Hx Hy]; [lra | lra | lra |].
    set (u := func Brachistochrone (INR i / 100)) in *.
    set (v := func Brachistochrone (INR j / 100)) in *.
    clearbody u v. unfold scaled300; cbn [fst snd]. lra.
Qed.

Lemma instructions_Brachistochrone_path_witness :
  exists p q,
    InstructionsPage.generateBrachistochronePath !! 25%nat = Some p /\
    InstructionsPage.generateBrachistochronePath !! 75%nat = Some q /\
    fst p < fst q /\ snd p < snd q.
Proof.
  assert (25 <= InstructionsPage.steps)%nat as Hi
    by (unfold InstructionsPage.steps; lia).
  assert (75 <= InstructionsPage.steps)%nat as Hj
    by (unfold InstructionsPage.steps; lia).
  pose proof (InstructionsPageFacts.generateBrachistochronePath_lookup 25 Hi)
    as Hp.
  pose proof (InstructionsPageFacts.generateBrachistochronePath_lookup 75 Hj)
    as Hq.
  eexists _, _. split; [exact Hp|]. split; [exact Hq|].
  destruct (instructions_Brachistochrone_path 25 75 _ _ Hp Hq)
    as (_ & _ & _ & _ & H).
  apply H. lia.
Defined.

Lemma cos_lt_1_open x : 0 < x < PI -> cos x < 1.
Proof.
  intros [H0 H1]. rewrite <- cos_0.
  apply cos_decreasing_1; lra.
Qed.

Lemma cos_pos_open x : 0 < x < PI / 2 -> 0 < cos x.
Proof. intros [H0 H1]. apply cos_gt_0; lra. Qed.

(** X20.  The polyline of the instructions page for the Parametric
    Cycloid bends the other way than the demo's curve: point [i] for a
    slider value [E] is the demo's tunable curve for [-E] at progress
    [i/100], scaled by 300.  The page and the demo draw the same midpoint
    only for [E = 0]. *)
Theorem instructions_Parametric_Cycloid_path E (i : nat) :
  (i <= InstructionsPage.steps)%nat ->
  InstructionsPage.generateParametricCycloidPath E !! i
  = Some (scaled300 (func (Parametric_Cycloid (- E)) (INR i / 100))) /\
  (InstructionsPage.generateParametricCycloidPath E !! 50%nat
   = Some (scaled300 (func (Parametric_Cycloid E) (INR 50 / 100)))
   <-> E = 0).
Proof.
  intros Hi. split.
  - by apply InstructionsPageFacts.generateParametricCycloidPath_lookup.
  - rewrite InstructionsPageFacts.generateParametricCycloidPath_lookup
      by (unfold InstructionsPage.steps; lia).
    assert (INR 50 / 100 = 1 / 2) as ->.
    { rewrite INR_IZR_INZ. change (Z.of_nat 50) with 50%Z. lra. }
    unfold scaled300.
    rewrite !Parametric_Cycloid_snd.
    replace (PI * (1 / 2)) with (PI / 2) by lra.
    rewrite sin_PI2, cos_PI2. split.
    + intros [= H]. lra.
    + intros ->. do 3 f_equal. lra.
Qed.

Lemma instructions_Parametric_Cycloid_path_witness :
  InstructionsPage.generateParametricCycloidPath
    InstructionsPage.cycloidParameter0 !! 50%nat
  <> Some (scaled300
             (func (Parametric_Cycloid InstructionsPage.cycloidParameter0)
                (INR 50 / 100))).
Proof.
  assert (50 <= InstructionsPage.steps)%nat as Hi
    by (unfold InstructionsPage.steps; lia).
  destruct (instructions_Parametric_Cycloid_path
              InstructionsPage.cycloidParameter0 50 Hi) as (_ & [H _]).
  intros Heq. apply H in Heq. unfold InstructionsPage.cycloidParameter0 in Heq.
  lra.
Defined.

(** X21.  The Parametric Cycloid polyline of the instructions page stays
    inside the view box for slider values up to [1/4].  From [1/2] on,
    which includes the value [0.5] the page opens with, every point of the
    first half of the polyline (between its start and its midpoint) has a
    negative ordinate and so lies above the view box. *)
Theorem instructions_Parametric_Cycloid_viewBox E (i : nat) p :
  (i <= InstructionsPage.steps)%nat ->
  InstructionsPage.generateParametricCycloidPath E !! i = Some p ->
  (0 <= E <= 1 / 4 -> InstructionsPage.inViewBox p) /\
  (1 / 2 <= E -> (0 < i < 50)%nat -> snd p < 0).
Proof.
  intros Hi.
  rewrite InstructionsPageFacts.generateParametricCycloidPath_lookup by done.
  intros Hp.
  assert (p = scaled300 (func (Parametric_Cycloid (- E)) (INR i / 100)))
    as -> by congruence.
  clear Hp.
  pose proof (InstructionsPageFacts.INR_fraction i Hi) as Ht.
  set (t := INR i / 100) in *.
  pose proof (COS_bound (PI * t)) as [Hc0 Hc1].
  assert (snd (func (Parametric_Cycloid (- E)) t)
          = (1 - cos (PI * t)) * (1 / 2 - E * (1 + cos (PI * t)))) as Hy.
  { rewrite Parametric_Cycloid_snd, sin_pow2. lra. }
  pose proof (Parametric_Cycloid_x (- E) t Ht) as Hx.
  set (q := func (Parametric_Cycloid (- E)) t) in *. clearbody q.
  split.
  - intros [HE0 HE1]. unfold InstructionsPage.inViewBox, scaled300.
    cbn [fst snd].
    rewrite Hy. set (c := cos (PI * t)) in *.
    assert (0 <= (1 - c) * (1 / 2 - E * (1 + c)))
      by (apply Rmult_le_pos; [lra|]; nra).
    assert (0 <= (1 - c) * (E * (1 + c)))
      by (apply Rmult_le_pos; [lra|]; apply Rmult_le_pos; lra).
    split; [lra|]. lra.
  - intros HE [Hi0 Hi1]. unfold scaled300. cbn [snd]. rewrite Hy.
    assert (0 < t < 1 / 2) as [Ht0 Ht1].
    { unfold t. apply lt_INR in Hi0, Hi1.
      rewrite (INR_IZR_INZ 50) in Hi1. change (Z.of_nat 50) with 50%Z in Hi1.
      cbn [INR] in Hi0. lra. }
    pose proof PI_RGT_0 as Hpi.
    assert (0 < PI * t) as Ha by (apply Rmult_lt_0_compat; lra).
    assert (PI * t < PI / 2) as Hb by nra.
    pose proof (cos_lt_1_open (PI * t) ltac:(lra)) as Hlt.
    pose proof (cos_pos_open (PI * t) ltac:(lra)) as Hpos.
    set (c := cos (PI * t)) in *.
    assert (0 < (1 - c) * (E * (1 + c) - 1 / 2))
      by (apply Rmult_lt_0_compat; [lra|]; nra).
    lra.
Qed.

Lemma instructions_Parametric_Cycloid_viewBox_witness :
  exists p,
    InstructionsPage.generateParametricCycloidPath
      InstructionsPage.cycloidParameter0 !! 25%nat = Some p /\ snd p < 0.
Proof.
  assert (25 <= InstructionsPage.steps)%nat as Hi
    by (unfold InstructionsPage.steps; lia).
  eexists. split.
  - exact (InstructionsPageFacts.generateParametricCycloidPath_lookup
             InstructionsPage.cycloidParameter0 25 Hi).
  - refine (proj2 (instructions_Parametric_Cycloid_viewBox
              InstructionsPage.cycloidParameter0 25 _ Hi
              (InstructionsPageFacts.generateParametricCycloidPath_lookup
                 InstructionsPage.cycloidParameter0 25 Hi)) _ _).
    + unfold InstructionsPage.cycloidParameter0. lra.
    + lia.
Defined.

(** ** Every run comes to an end *)



